(** * Google Drive connector (src/main.py): a shallow embedding

    The service is a thin layer over the Drive client library.  The model
    keeps the control flow of [main.py] as it is written: exceptions are an
    explicit result type, the [drive_service] singleton and the logger are
    threaded through a small state-and-exception monad, dictionaries coming
    from the provider are finite maps, and the library calls the code relies
    on (credential loading, [build], UTF-8 decoding, PyPDF2, the provider's
    answers) are fields of a [World] or of a [Resource] that every theorem
    quantifies over. *)

From Stdlib Require Import ZArith Ascii String DecimalString List Lia.
From stdpp Require Import base option list gmap strings.
Import ListNotations.

Local Open Scope string_scope.
Local Open Scope list_scope.
Local Open Scope stdpp_scope.

(** ** Exceptions and results *)

(** The exception classes the code raises or catches.  [HttpError] is
    googleapiclient's provider error (its field is [str(e)]);
    [HTTPException] is FastAPI's.  Every constructor stands for a subclass of
    Python's [Exception]. *)
Inductive exn : Type :=
| HTTPException (status_code : Z) (detail : string)
| HttpError (reason : string)
| ValueError (msg : string)
| KeyError (key : string)
| AttributeError (msg : string)
| UnicodeDecodeError (msg : string)
| OtherException (msg : string).

Inductive result (A : Type) : Type :=
| Ok (a : A)
| Raise (e : exn).
Arguments Ok {A} a.
Arguments Raise {A} e.

Definition result_bind {A B} (r : result A) (k : A -> result B) : result B :=
  match r with
  | Ok a => k a
  | Raise e => Raise e
  end.

Definition is_HttpError (e : exn) : bool :=
  match e with
  | HttpError _ => true
  | _ => false
  end.

(** ** Bytes and the in-memory buffer [io.BytesIO] *)

Abbreviation bytes := (list Byte.byte).

Record BytesIO : Type := mkBytesIO { buf : bytes; pos : nat }.

(** [io.BytesIO()] *)
Definition BytesIO_new : BytesIO := mkBytesIO [] 0.

(** [fh.write(data)]: overwrite at the current position, padding with zero
    bytes when the position is past the end, and advance the position.  An
    empty write changes nothing. *)
Definition BytesIO_write (fh : BytesIO) (data : bytes) : BytesIO :=
  match data with
  | [] => fh
  | _ =>
      let padded := buf fh ++ repeat Byte.x00 (pos fh - length (buf fh)) in
      mkBytesIO
        (take (pos fh) padded ++ data ++ drop (pos fh + length data) padded)
        (pos fh + length data)
  end.

(** [fh.seek(p)] *)
Definition BytesIO_seek (fh : BytesIO) (p : nat) : BytesIO :=
  mkBytesIO (buf fh) p.

(** [fh.getvalue()]: the whole buffer, whatever the position. *)
Definition getvalue (fh : BytesIO) : bytes := buf fh.

(** [fh.read()]: everything from the current position on. *)
Definition BytesIO_read (fh : BytesIO) : bytes := drop (pos fh) (buf fh).

(** ** Chunked provider downloads *)

(** What a media request delivers when [MediaIoBaseDownload.next_chunk] is
    called repeatedly: a chunk with [done = False] and more to come, a last
    chunk with [done = True], or an error raised by the call. *)
Inductive Download : Type :=
| LastChunk (data : bytes)
| Chunk (data : bytes) (rest : Download)
| ChunkError (e : exn).

(** The block every extraction routine repeats:
<<
    downloader = MediaIoBaseDownload(fh, request)
    done = False
    while done is False:
        status, done = downloader.next_chunk()
>>
    [next_chunk] writes the content it received to [fh]. *)
Fixpoint download_loop (request : Download) (fh : BytesIO) : result BytesIO :=
  match request with
  | LastChunk data => Ok (BytesIO_write fh data)
  | Chunk data rest => download_loop rest (BytesIO_write fh data)
  | ChunkError e => Raise e
  end.

(** A simulated provider delivering the given chunks in order and signalling
    completion with the last one (with an empty chunk when there is none). *)
Fixpoint simulated_provider (chunks : list bytes) : Download :=
  match chunks with
  | [] => LastChunk []
  | [c] => LastChunk c
  | c :: rest => Chunk c (simulated_provider rest)
  end.

(** The bytes a request delivers in total, when it completes. *)
Fixpoint delivered (request : Download) : option bytes :=
  match request with
  | LastChunk data => Some data
  | Chunk data rest =>
      match delivered rest with
      | Some more => Some (data ++ more)
      | None => None
      end
  | ChunkError _ => None
  end.

(** The first error a request raises, when it does not complete. *)
Fixpoint download_error (request : Download) : option exn :=
  match request with
  | LastChunk _ => None
  | Chunk _ rest => download_error rest
  | ChunkError e => Some e
  end.

(** The position of a buffer that was only ever appended to. *)
Definition at_end (fh : BytesIO) : Prop := pos fh = length (buf fh).

(** ** Text *)

(** The text of a file is a Python [str]: a sequence of Unicode code
    points.  Identifiers, names, content types and messages, which the code
    only compares and concatenates, stay strings. *)
Abbreviation Text := (list N).

(** [c.isspace()]: the code points Python counts as whitespace, which are
    TAB to CR, FS to US, space, NEL, the no-break space, the Ogham space
    mark, EN QUAD to HAIR SPACE, the line and paragraph separators, the
    narrow no-break space, the medium mathematical space and the ideographic
    space. *)
Definition isspace (c : N) : bool :=
  ((9 <=? c) && (c <=? 13) || (28 <=? c) && (c <=? 32)
   || (c =? 133) || (c =? 160) || (c =? 5760)
   || (8192 <=? c) && (c <=? 8202)
   || (c =? 8232) || (c =? 8233) || (c =? 8239) || (c =? 8287)
   || (c =? 12288))%N.

(** [s.lstrip()], [s.rstrip()] and [s.strip()] without argument. *)
Fixpoint lstrip (s : Text) : Text :=
  match s with
  | [] => []
  | c :: s' => if isspace c then lstrip s' else s
  end.

Fixpoint rstrip (s : Text) : Text :=
  match s with
  | [] => []
  | c :: s' =>
      match rstrip s' with
      | [] => if isspace c then [] else [c]
      | r => c :: r
      end
  end.

Definition strip (s : Text) : Text := rstrip (lstrip s).

(** The newline literal of the source. *)
Definition newline : Text := [10%N].

(** A string of the model read as text, character by character. *)
Definition text_of_string (s : string) : Text :=
  map N_of_ascii (list_ascii_of_string s).

(** A value used as a condition: [None] and the empty string are falsy. *)
Definition truthy (o : option string) : bool :=
  match o with
  | Some s => negb (String.eqb s EmptyString)
  | None => false
  end.

(** [d[k]] on a dictionary of strings. *)
Definition getitem (d : gmap string string) (k : string) : result string :=
  match d !! k with
  | Some v => Ok v
  | None => Raise (KeyError k)
  end.

(** ** The provider client and the outside world *)

(** The object returned by [build('drive', 'v3', ...)]: what each request of
    the code answers when executed.  [files_list q fields] is
    [files().list(q=q, fields=fields).execute()], with [None] for an answer
    without a ['files'] key; [files_get] is [files().get(fileId=...).execute()];
    the two media requests are consumed through [MediaIoBaseDownload]. *)
Record Resource : Type := mkResource {
  files_list : string -> string -> result (option (list (gmap string string)));
  files_get : string -> result (gmap string string);
  files_export_media : string -> string -> Download;
  files_get_media : string -> Download
}.

(** Everything the code reads from its environment or delegates to a
    library, as it stands when an operation runs. *)
Record World : Type := mkWorld {
  Credentials : Type;
  Json : Type;
  Page : Type;
  (** [os.environ], after [load_dotenv()] *)
  environ : gmap string string;
  (** [os.path.exists] *)
  path_exists : string -> bool;
  (** [service_account.Credentials.from_service_account_file(path, scopes=...)] *)
  from_service_account_file : string -> list string -> result Credentials;
  (** [json.loads] *)
  json_loads : string -> result Json;
  (** [service_account.Credentials.from_service_account_info(info, scopes=...)] *)
  from_service_account_info : Json -> list string -> result Credentials;
  (** [googleapiclient.discovery.build] *)
  build : string -> string -> Credentials -> result Resource;
  (** [b.decode('utf-8')] *)
  decode_utf8 : bytes -> result Text;
  (** [PyPDF2.PdfReader(stream).pages] on the bytes of the stream *)
  PdfReader_pages : bytes -> result (list Page);
  (** [page.extract_text()] *)
  extract_text : Page -> result Text;
  (** [str(e)] for a FastAPI [HTTPException] *)
  str_HTTPException : Z -> string -> string;
  (** [str(n)] for a length and [str(files)] for a list of dictionaries,
      used in log messages only *)
  str_len : nat -> string;
  str_files : list (gmap string string) -> string
}.

(** [os.getenv(name)] *)
Definition getenv (w : World) (name : string) : option string :=
  environ w !! name.

(** [str(e)] *)
Definition str (w : World) (e : exn) : string :=
  match e with
  | HTTPException status_code detail => str_HTTPException w status_code detail
  | HttpError reason => reason
  | ValueError msg => msg
  | KeyError key => "'" +:+ key +:+ "'"
  | AttributeError msg => msg
  | UnicodeDecodeError msg => msg
  | OtherException msg => msg
  end.

(** ** Data model *)

Record FileInfo : Type := mkFileInfo { info_id : string; info_name : string }.

Record FileContent : Type := mkFileContent {
  content_id : string;
  content_name : string;
  content : Text
}.

(** The fields of a [DriveService] object. *)
Record DriveService : Type := mkDriveService {
  service : option Resource;
  folder_id : string
}.

Inductive log_record : Type :=
| INFO (msg : string)
| ERROR (msg : string).

(** The requests sent to the provider, as the code issues them. *)
Inductive api_call : Type :=
| ListRequest (q fields : string)
| GetRequest (fileId : string)
| ExportRequest (fileId mimeType : string)
| MediaRequest (fileId : string).

(** The process state: the module-level [drive_service] singleton, what
    [logger] has emitted and the provider requests issued so far. *)
Record State : Type := mkState {
  drive_service : DriveService;
  log : list log_record;
  calls : list api_call
}.

(** ** The state-and-exception monad *)

(** A computation runs from a state to a result and a state; state changes
    made before an exception is raised persist, as in Python. *)
Definition M (A : Type) : Type := State -> result A * State.

Definition ret {A} (a : A) : M A := fun s => (Ok a, s).

Definition raise {A} (e : exn) : M A := fun s => (Raise e, s).

Definition bind {A B} (m : M A) (k : A -> M B) : M B :=
  fun s =>
    match m s with
    | (Ok a, s') => k a s'
    | (Raise e, s') => (Raise e, s')
    end.

Definition lift {A} (r : result A) : M A := fun s => (r, s).

(** [try: body / except <class> as e: handler e]; [catches] tells which
    exceptions the clause matches. *)
Definition try_except {A} (body : M A) (catches : exn -> bool) (handler : exn -> M A) : M A :=
  fun s =>
    match body s with
    | (Ok a, s') => (Ok a, s')
    | (Raise e, s') => if catches e then handler e s' else (Raise e, s')
    end.

(** [except Exception] matches every exception of the model. *)
Definition is_Exception (e : exn) : bool := true.

Declare Scope py_scope.
Delimit Scope py_scope with py.
Notation "x <- m ;; k" := (bind m (fun x => k))
  (at level 100, m at next level, right associativity) : py_scope.
Notation "m ;; k" := (bind m (fun _ => k))
  (at level 100, right associativity) : py_scope.
Local Open Scope py_scope.

Definition with_log (s : State) (r : log_record) : State :=
  mkState (drive_service s) (log s ++ [r]) (calls s).

Definition logger_info (msg : string) : M unit :=
  fun s => (Ok tt, with_log s (INFO msg)).

Definition logger_error (msg : string) : M unit :=
  fun s => (Ok tt, with_log s (ERROR msg)).

(** Issuing a request to the provider. *)
Definition with_call (s : State) (c : api_call) : State :=
  mkState (drive_service s) (log s) (calls s ++ [c]).

Definition provider_request (c : api_call) : M unit :=
  fun s => (Ok tt, with_call s c).

(** [self.service] and [self.folder_id], read *)
Definition self_service : M (option Resource) :=
  fun s => (Ok (service (drive_service s)), s).

Definition self_folder_id : M string :=
  fun s => (Ok (folder_id (drive_service s)), s).

(** [self.service = svc] *)
Definition set_self_service (svc : Resource) : M unit :=
  fun s => (Ok tt, mkState (mkDriveService (Some svc) (folder_id (drive_service s)))
                           (log s) (calls s)).

(** [self.service.files()]: an attribute access on [None] raises. *)
Definition self_service_files : M Resource :=
  svc <- self_service;;
  match svc with
  | Some r => ret r
  | None => raise (AttributeError "'NoneType' object has no attribute 'files'")
  end.

(** [fh = io.BytesIO()] followed by the download loop on a media request. *)
Definition download (req : Download) : M BytesIO :=
  lift (download_loop req BytesIO_new).

(** ** [class DriveService] *)

Definition scopes : list string :=
  ["https://www.googleapis.com/auth/drive.readonly"].

Definition no_credentials_message : string :=
  "No valid Google credentials found. Set GOOGLE_APPLICATION_CREDENTIALS or GOOGLE_SERVICE_ACCOUNT_JSON".

Module DriveService.

(** [__init__]: no session yet, and the folder identifier is required. *)
Definition __init__ (w : World) : result DriveService :=
  let folder_id := getenv w "GDRIVE_FOLDER_ID" in
  if negb (truthy folder_id) then
    Raise (ValueError "GDRIVE_FOLDER_ID environment variable is required")
  else
    Ok (mkDriveService None (default EmptyString folder_id)).

(** The second credential source of [authenticate]. *)
Definition authenticate_json (w : World) : M unit :=
  let credentials_json := getenv w "GOOGLE_SERVICE_ACCOUNT_JSON" in
  match credentials_json with
  | Some text =>
      if truthy credentials_json then
        credentials_info <- lift (json_loads w text);;
        credentials <- lift (from_service_account_info w credentials_info scopes);;
        svc <- lift (build w "drive" "v3" credentials);;
        set_self_service svc;;
        logger_info "Authenticated using service account JSON"
      else
        raise (ValueError no_credentials_message)
  | None => raise (ValueError no_credentials_message)
  end.

(** The body of the [try] of [authenticate]. *)
Definition authenticate_try (w : World) : M unit :=
  let credentials_path := getenv w "GOOGLE_APPLICATION_CREDENTIALS" in
  match credentials_path with
  | Some path =>
      if truthy credentials_path && path_exists w path then
        credentials <- lift (from_service_account_file w path scopes);;
        svc <- lift (build w "drive" "v3" credentials);;
        set_self_service svc;;
        logger_info "Authenticated using service account"
      else
        authenticate_json w
  | None => authenticate_json w
  end.

Definition authenticate (w : World) : M unit :=
  try_except (authenticate_try w) is_Exception
    (fun e =>
       logger_error ("Authentication failed: " +:+ str w e);;
       raise (HTTPException 500 ("Authentication failed: " +:+ str w e))).

(** [if not self.service: self.authenticate()] *)
Definition ensure_authenticated (w : World) : M unit :=
  svc <- self_service;;
  match svc with
  | None => authenticate w
  | Some _ => ret tt
  end.

(** [[FileInfo(id=file['id'], name=file['name']) for file in files]] *)
Fixpoint to_file_infos (files : list (gmap string string)) : result (list FileInfo) :=
  match files with
  | [] => Ok []
  | file :: rest =>
      result_bind (getitem file "id") (fun id =>
      result_bind (getitem file "name") (fun name =>
      result_bind (to_file_infos rest) (fun infos =>
      Ok (mkFileInfo id name :: infos))))
  end.

Definition list_files_try (w : World) : M (list FileInfo) :=
  folder <- self_folder_id;;
  let query := "'" +:+ folder +:+ "' in parents and trashed=false" in
  logger_info ("Searching with query: " +:+ query);;
  files_api <- self_service_files;;
  provider_request (ListRequest query "files(id, name, mimeType)");;
  results <- lift (files_list files_api query "files(id, name, mimeType)");;
  let files := default [] results in
  logger_info ("Found " +:+ str_len w (length files) +:+ " files: " +:+ str_files w files);;
  lift (to_file_infos files).

Definition list_files (w : World) : M (list FileInfo) :=
  ensure_authenticated w;;
  try_except (list_files_try w) is_HttpError
    (fun e =>
       logger_error ("Error listing files: " +:+ str w e);;
       raise (HTTPException 400 ("Error listing files: " +:+ str w e))).

(** The export of a native document to [mime_type], decoded as UTF-8:
    the common body of [_export_google_doc], [_export_google_sheet] and
    [_export_google_slides]. *)
Definition export_as (w : World) (file_id mime_type : string) : M Text :=
  files_api <- self_service_files;;
  provider_request (ExportRequest file_id mime_type);;
  fh <- download (files_export_media files_api file_id mime_type);;
  lift (decode_utf8 w (getvalue fh)).

Definition _export_google_doc (w : World) (file_id : string) : M Text :=
  export_as w file_id "text/plain".

Definition _export_google_sheet (w : World) (file_id : string) : M Text :=
  export_as w file_id "text/csv".

Definition _export_google_slides (w : World) (file_id : string) : M Text :=
  export_as w file_id "text/plain".

(** [for page in pdf_reader.pages: text += page.extract_text() + "\n"] *)
Fixpoint extract_pages (w : World) (pages : list (Page w)) (text : Text) : result Text :=
  match pages with
  | [] => Ok text
  | page :: rest =>
      result_bind (extract_text w page) (fun t =>
      extract_pages w rest (text ++ (t ++ newline)))
  end.

Definition _extract_pdf_text (w : World) (file_id : string) : M Text :=
  files_api <- self_service_files;;
  provider_request (MediaRequest file_id);;
  fh <- download (files_get_media files_api file_id);;
  let fh := BytesIO_seek fh 0 in
  pages <- lift (PdfReader_pages w (BytesIO_read fh));;
  text <- lift (extract_pages w pages []);;
  ret (strip text).

Definition _download_text_file (w : World) (file_id : string) : M Text :=
  files_api <- self_service_files;;
  provider_request (MediaRequest file_id);;
  fh <- download (files_get_media files_api file_id);;
  lift (decode_utf8 w (getvalue fh)).

(** The [if]/[elif] chain of [get_file_content] on the declared type. *)
Definition extract_by_type (w : World) (file_id mime_type : string) : M Text :=
  if String.eqb mime_type "application/vnd.google-apps.document" then
    _export_google_doc w file_id
  else if String.eqb mime_type "application/vnd.google-apps.spreadsheet" then
    _export_google_sheet w file_id
  else if String.eqb mime_type "application/vnd.google-apps.presentation" then
    _export_google_slides w file_id
  else if String.eqb mime_type "application/pdf" then
    _extract_pdf_text w file_id
  else if String.prefix "text/" mime_type then
    _download_text_file w file_id
  else
    raise (HTTPException 400 ("Unsupported file type: " +:+ mime_type)).

Definition get_file_content_try (w : World) (file_id : string) : M FileContent :=
  files_api <- self_service_files;;
  provider_request (GetRequest file_id);;
  file_metadata <- lift (files_get files_api file_id);;
  file_name <- lift (getitem file_metadata "name");;
  mime_type <- lift (getitem file_metadata "mimeType");;
  content <- extract_by_type w file_id mime_type;;
  ret (mkFileContent file_id file_name content).

Definition get_file_content (w : World) (file_id : string) : M FileContent :=
  ensure_authenticated w;;
  try_except (get_file_content_try w file_id) is_HttpError
    (fun e =>
       logger_error ("Error getting file content: " +:+ str w e);;
       raise (HTTPException 400 ("Error getting file content: " +:+ str w e))).

End DriveService.

(** ** Module level: the singleton, the startup hook and the endpoints *)

(** [drive_service = DriveService()], executed when the module is loaded. *)
Definition load_module (w : World) : result State :=
  result_bind (DriveService.__init__ w) (fun ds => Ok (mkState ds [] [])).

Definition startup_event (w : World) : M unit :=
  try_except
    (DriveService.authenticate w;;
     logger_info "Google Drive service initialized successfully")
    is_Exception
    (fun e => logger_error ("Failed to initialize Google Drive service: " +:+ str w e)).

(** Loading the module and then running the startup hook, as a server that
    imports the application does; an exception in either ends it.  The
    [if __name__ == "__main__"] block, which reads [PORT] and hands the
    application to uvicorn when the file is run as a script, comes after the
    module-level statements and is not part of this definition. *)
Definition start_service (w : World) : result State :=
  result_bind (load_module w) (fun st =>
    match startup_event w st with
    | (Ok _, st') => Ok st'
    | (Raise e, _) => Raise e
    end).

(** [GET /files] *)
Definition list_files (w : World) : M (list FileInfo) :=
  try_except (DriveService.list_files w) is_Exception
    (fun e =>
       logger_error ("Error in list_files endpoint: " +:+ str w e);;
       raise (HTTPException 500 (str w e))).

(** [GET /file/{file_id}] *)
Definition get_file (w : World) (file_id : string) : M FileContent :=
  try_except (DriveService.get_file_content w file_id) is_Exception
    (fun e =>
       logger_error ("Error in get_file endpoint: " +:+ str w e);;
       raise (HTTPException 500 (str w e))).

(** ** The contract, in the words of the specification *)

(** Where the credentials come from, resolved in the order the
    specification gives: a configured path whose file exists, else configured
    inline text, else nothing. *)
Inductive credential_source : Type :=
| CredentialFile (path : string)
| InlineCredentials (text : string)
| NoCredentials.

Definition configured (o : option string) : option string :=
  match o with
  | Some s => if String.eqb s EmptyString then None else Some s
  | None => None
  end.

Definition resolve_credentials (w : World) : credential_source :=
  match configured (getenv w "GOOGLE_APPLICATION_CREDENTIALS") with
  | Some path =>
      if path_exists w path then CredentialFile path
      else match configured (getenv w "GOOGLE_SERVICE_ACCOUNT_JSON") with
           | Some text => InlineCredentials text
           | None => NoCredentials
           end
  | None =>
      match configured (getenv w "GOOGLE_SERVICE_ACCOUNT_JSON") with
      | Some text => InlineCredentials text
      | None => NoCredentials
      end
  end.

(** Using a credential source: load or parse it, then build the client. *)
Definition session_from (w : World) (src : credential_source) : result Resource :=
  match src with
  | CredentialFile path =>
      result_bind (from_service_account_file w path scopes) (build w "drive" "v3")
  | InlineCredentials text =>
      result_bind (json_loads w text) (fun info =>
      result_bind (from_service_account_info w info scopes) (build w "drive" "v3"))
  | NoCredentials => Raise (ValueError no_credentials_message)
  end.

(** The log line of a successful authentication. *)
Definition authenticated_message (src : credential_source) : string :=
  match src with
  | CredentialFile _ => "Authenticated using service account"
  | _ => "Authenticated using service account JSON"
  end.

(** The state [authenticate] leaves behind when it establishes [svc]. *)
Definition authenticated_state (src : credential_source) (svc : Resource) (st : State) : State :=
  mkState (mkDriveService (Some svc) (folder_id (drive_service st)))
          (log st ++ [INFO (authenticated_message src)]) (calls st).

(** The state it leaves behind when it fails on [e]. *)
Definition rejected_state (w : World) (e : exn) (st : State) : State :=
  with_log st (ERROR ("Authentication failed: " +:+ str w e)).

(** The query selecting the non-trashed entries whose parent is [folder]. *)
Definition folder_query (folder : string) : string :=
  "'" +:+ folder +:+ "' in parents and trashed=false".

(** A provider entry rendered verbatim as an {id, name} record. *)
Definition same_entry (file : gmap string string) (info : FileInfo) : Prop :=
  file !! "id" = Some (info_id info) /\ file !! "name" = Some (info_name info).

(** Texts joined with a separator between consecutive ones. *)
Fixpoint join (sep : Text) (parts : list Text) : Text :=
  match parts with
  | [] => []
  | [part] => part
  | part :: rest => part ++ sep ++ join sep rest
  end.

(** The first and the last code point of a text, when it has one, are no
    whitespace. *)
Definition clean_ends (r : Text) : Prop :=
  (forall c, head r = Some c -> isspace c = false) /\
  (forall c, last r = Some c -> isspace c = false).

(** [r] is [s] with its leading and trailing whitespace removed: [s] is [r]
    between a run of whitespace and a run of whitespace, and [r] itself
    neither begins nor ends with whitespace. *)
Definition trimmed_of (s r : Text) : Prop :=
  exists before after,
    s = before ++ r ++ after /\
    forallb isspace before = true /\
    forallb isspace after = true /\
    clean_ends r.

(** The content types the dispatch of [get_file_content] knows. *)
Definition supported_type (mime_type : string) : bool :=
  String.eqb mime_type "application/vnd.google-apps.document"
  || String.eqb mime_type "application/vnd.google-apps.spreadsheet"
  || String.eqb mime_type "application/vnd.google-apps.presentation"
  || String.eqb mime_type "application/pdf"
  || String.prefix "text/" mime_type.

(** The status code of an outcome, when it is an HTTP error. *)
Definition status_of {A} (r : result A) : option Z :=
  match r with
  | Raise (HTTPException status_code _) => Some status_code
  | _ => None
  end.

(** What a request handler makes of the outcome of the operation it wraps:
    a value is returned as it is, an exception becomes an HTTP error carrying
    its text. *)
Definition converted {A} (w : World) (operation handler : result A) : Prop :=
  match operation, handler with
  | Ok a, Ok b => a = b
  | Raise e, Raise e' => e' = HTTPException 500 (str w e)
  | _, _ => False
  end.

(** A computation that sends nothing to the provider. *)
Definition quiet {A} (m : M A) : Prop :=
  forall st, calls (snd (m st)) = calls st.

(** Run from [st], the computation sends the provider a subsequence of
    [allowed]: each request of the list at most once, in that order, and
    nothing else. *)
Definition issues {A} (m : M A) (st : State) (allowed : list api_call) : Prop :=
  exists new, calls (snd (m st)) = calls st ++ new /\ new `sublist_of` allowed.

(** The requests one [GET /files] may send. *)
Definition list_requests (st : State) : list api_call :=
  [ListRequest (folder_query (folder_id (drive_service st))) "files(id, name, mimeType)"].

(** The requests one [GET /file/{file_id}] may send. *)
Definition content_requests (file_id : string) : list api_call :=
  [GetRequest file_id;
   ExportRequest file_id "text/plain";
   ExportRequest file_id "text/csv";
   MediaRequest file_id].

(** ** Concrete worlds *)

Definition text_bytes (s : string) : bytes := String.list_byte_of_string s.

(** Decoding restricted to ASCII input, where UTF-8 decoding is the identity. *)
Definition decode_ascii (data : bytes) : result Text :=
  if forallb (fun b => (Byte.to_nat b <? 128)%nat) data
  then Ok (map Byte.to_N data)
  else Raise (UnicodeDecodeError "'utf-8' codec can't decode byte").

(** Starlette renders an [HTTPException] as its status and its detail. *)
Definition starlette_str (status_code : Z) (detail : string) : string :=
  NilZero.string_of_int (Z.to_int status_code) +:+ ": " +:+ detail.

Definition demo_files : list (gmap string string) :=
  [ {[ "id" := "f1"; "name" := "notes.txt"; "mimeType" := "text/plain" ]};
    {[ "id" := "f2"; "name" := "archive.zip"; "mimeType" := "application/zip" ]};
    {[ "id" := "f3"; "name" := "report"; "mimeType" := "application/vnd.google-apps.document" ]};
    {[ "id" := "f4"; "name" := "paper.pdf"; "mimeType" := "application/pdf" ]} ].

Definition not_found : exn := HttpError "HttpError 404: File not found".

Definition demo_resource : Resource := {|
  files_list q fields :=
    if String.eqb q "'folder1' in parents and trashed=false"
    then Ok (Some demo_files) else Ok (Some []);
  files_get fileId :=
    match List.find (fun f => bool_decide (f !! "id" = Some fileId)) demo_files with
    | Some f => Ok f
    | None => Raise not_found
    end;
  files_export_media fileId mimeType :=
    if String.eqb fileId "f3"
    then Chunk (text_bytes "quarterly ") (Chunk (text_bytes "report ") (LastChunk (text_bytes "body")))
    else ChunkError not_found;
  files_get_media fileId :=
    if String.eqb fileId "f1" then LastChunk (text_bytes "plain notes")
    else if String.eqb fileId "f4" then Chunk (text_bytes "%PDF") (LastChunk (text_bytes "-1.4"))
    else ChunkError not_found
|}.

(** A provider that rejects every request. *)
Definition failing_resource : Resource := {|
  files_list q fields := Raise (HttpError "HttpError 403: rate limit exceeded");
  files_get fileId := Raise not_found;
  files_export_media fileId mimeType := ChunkError not_found;
  files_get_media fileId := ChunkError not_found
|}.

Definition demo_world_with (env : gmap string string) (api : Resource) : World := {|
  Credentials := unit;
  Json := unit;
  Page := string;
  environ := env;
  path_exists := fun _ => false;
  from_service_account_file := fun _ _ => Raise (OtherException "No such file");
  json_loads := fun _ => Ok tt;
  from_service_account_info := fun _ _ => Ok tt;
  build := fun _ _ _ => Ok api;
  decode_utf8 := decode_ascii;
  PdfReader_pages := fun _ => Ok ["  first page"; "second page "];
  extract_text := fun page => Ok (text_of_string page);
  str_HTTPException := starlette_str;
  str_len := fun n => NilZero.string_of_uint (Nat.to_uint n);
  str_files := fun _ => "[...]"
|}.

(** Folder and inline credentials configured. *)
Definition demo_world : World :=
  demo_world_with {[ "GDRIVE_FOLDER_ID" := "folder1"; "GOOGLE_SERVICE_ACCOUNT_JSON" := "{}" ]}
                  demo_resource.

(** The same configuration against the rejecting provider. *)
Definition failing_world : World :=
  demo_world_with {[ "GDRIVE_FOLDER_ID" := "folder1"; "GOOGLE_SERVICE_ACCOUNT_JSON" := "{}" ]}
                  failing_resource.

(** Folder configured, no credentials at all. *)
Definition no_credentials_world : World :=
  demo_world_with {[ "GDRIVE_FOLDER_ID" := "folder1" ]} demo_resource.

(** Nothing configured. *)
Definition empty_world : World := demo_world_with ∅ demo_resource.

(** The state right after [DriveService()]. *)
Definition fresh_state : State := mkState (mkDriveService None "folder1") [] [].

(** ** Further notions and concrete worlds *)

(** An outcome that is a value. *)
Definition is_Ok {A} (r : result A) : bool :=
  match r with
  | Ok _ => true
  | Raise _ => false
  end.

(** A computation that leaves the [drive_service] object as it found it. *)
Definition keeps_object {A} (m : M A) : Prop :=
  forall st, drive_service (snd (m st)) = drive_service st.

(** A text made of whitespace only. *)
Definition blank (s : Text) : Prop := lstrip s = [].

(** A text that does not begin with whitespace. *)
Definition starts_clean (s : Text) : Prop :=
  match s with
  | [] => True
  | c :: _ => isspace c = false
  end.

(** A provider entry carrying the two keys the list operation reads. *)
Definition has_id_and_name (file : gmap string string) : Prop :=
  is_Some (file !! "id") /\ is_Some (file !! "name").

(** Two provider entries that agree on the keys the list operation reads. *)
Definition same_id_and_name (file file' : gmap string string) : Prop :=
  file !! "id" = file' !! "id" /\ file !! "name" = file' !! "name".

Definition backend_error : exn := HttpError "HttpError 500: backend error".

(** A provider with one file of each remaining kind: a spreadsheet [s1], a
    slide deck [p1], a CSV text file [t1], a text file [b1] whose bytes are
    not valid text, a document [d1] whose download breaks after the first
    chunk, a file [m1] whose metadata has no type, an archive [z1] and
    the PDFs [q1] and [k1].  Its folder listing has an entry without identifier. *)
Definition extra_resource : Resource := {|
  files_list q fields :=
    Ok (Some [ {[ "id" := "s1"; "name" := "budget" ]};
               {[ "name" := "nameless entry" ]};
               {[ "id" := "p1"; "name" := "slides" ]} ]);
  files_get fileId :=
    if String.eqb fileId "s1" then
      Ok {[ "name" := "budget"; "mimeType" := "application/vnd.google-apps.spreadsheet" ]}
    else if String.eqb fileId "p1" then
      Ok {[ "name" := "slides"; "mimeType" := "application/vnd.google-apps.presentation" ]}
    else if String.eqb fileId "t1" then
      Ok {[ "name" := "table.csv"; "mimeType" := "text/csv" ]}
    else if String.eqb fileId "b1" then
      Ok {[ "name" := "binary.txt"; "mimeType" := "text/plain" ]}
    else if String.eqb fileId "d1" then
      Ok {[ "name" := "draft"; "mimeType" := "application/vnd.google-apps.document" ]}
    else if String.eqb fileId "m1" then
      Ok {[ "name" := "untyped" ]}
    else if String.eqb fileId "z1" then
      Ok {[ "name" := "archive.zip"; "mimeType" := "application/zip" ]}
    else if String.eqb fileId "q1" then
      Ok {[ "name" := "scan.pdf"; "mimeType" := "application/pdf" ]}
    else Raise not_found;
  files_export_media fileId mimeType :=
    if String.eqb fileId "d1" then
      Chunk (text_bytes "partial") (ChunkError backend_error)
    else if String.eqb fileId "s1" && String.eqb mimeType "text/csv" then
      Chunk (text_bytes "a,b;") (LastChunk (text_bytes "1,2"))
    else if String.eqb fileId "p1" && String.eqb mimeType "text/plain" then
      LastChunk (text_bytes "slide one")
    else ChunkError not_found;
  files_get_media fileId :=
    if String.eqb fileId "d1" then
      Chunk (text_bytes "partial") (ChunkError backend_error)
    else if String.eqb fileId "t1" then
      Chunk (text_bytes " x,y") (LastChunk (text_bytes " "))
    else if String.eqb fileId "b1" then LastChunk [Byte.xff; Byte.xfe]
    else if String.eqb fileId "q1" then LastChunk (text_bytes "%PDF")
    else if String.eqb fileId "k1" then LastChunk (text_bytes "%PDF-blank")
    else ChunkError not_found
|}.

(** A provider that cannot be reached: the client library raises an error
    of its transport, which is not an [HttpError]. *)
Definition unreachable_resource : Resource := {|
  files_list q fields := Raise (OtherException "TransportError: connection reset");
  files_get fileId := Raise (OtherException "TransportError: connection reset");
  files_export_media fileId mimeType :=
    ChunkError (OtherException "TransportError: connection reset");
  files_get_media fileId :=
    ChunkError (OtherException "TransportError: connection reset")
|}.

(** A world whose credential file exists when [file_there] says so and
    cannot be loaded, whose inline credentials are fine, and whose PDF
    reader finds three pages, the second of which cannot be extracted, in
    a stream of four bytes and three blank pages in any other. *)
Definition extra_world_with
    (env : gmap string string) (file_there : bool) (api : Resource) : World := {|
  Credentials := unit;
  Json := unit;
  Page := string;
  environ := env;
  path_exists := fun _ => file_there;
  from_service_account_file := fun _ _ => Raise (ValueError "Invalid key file");
  json_loads := fun _ => Ok tt;
  from_service_account_info := fun _ _ => Ok tt;
  build := fun _ _ _ => Ok api;
  decode_utf8 := decode_ascii;
  PdfReader_pages := fun data =>
    if Nat.eqb (length data) 4 then Ok ["cover"; "scanned"; "index"]
    else Ok ["  "; EmptyString; String (ascii_of_nat 10) EmptyString];
  extract_text := fun page =>
    if String.eqb page "scanned" then Raise (OtherException "cannot extract text")
    else Ok (text_of_string page);
  str_HTTPException := starlette_str;
  str_len := fun n => NilZero.string_of_uint (Nat.to_uint n);
  str_files := fun _ => "[...]"
|}.

(** Folder and inline credentials configured, against [extra_resource]. *)
Definition extra_world : World :=
  extra_world_with {[ "GDRIVE_FOLDER_ID" := "folder1"; "GOOGLE_SERVICE_ACCOUNT_JSON" := "{}" ]}
                   false extra_resource.

(** The same against the unreachable provider. *)
Definition unreachable_world : World :=
  extra_world_with {[ "GDRIVE_FOLDER_ID" := "folder1"; "GOOGLE_SERVICE_ACCOUNT_JSON" := "{}" ]}
                   false unreachable_resource.

(** A credential file that exists but is invalid, beside valid inline
    credentials. *)
Definition broken_file_world : World :=
  extra_world_with {[ "GDRIVE_FOLDER_ID" := "folder1";
                      "GOOGLE_APPLICATION_CREDENTIALS" := "/secrets/key.json";
                      "GOOGLE_SERVICE_ACCOUNT_JSON" := "{}" ]}
                   true extra_resource.

(** The folder identifier set to the empty string. *)
Definition empty_folder_world : World :=
  extra_world_with {[ "GDRIVE_FOLDER_ID" := EmptyString; "GOOGLE_SERVICE_ACCOUNT_JSON" := "{}" ]}
                   false extra_resource.

(** The state of a process whose session is established with [api]. *)
Definition session_state (api : Resource) : State :=
  mkState (mkDriveService (Some api) "folder1") [] [].

(** * Properties *)

(** ** Concrete runs *)

Example strip_run :
  strip (text_of_string "  two words " ++ newline) = text_of_string "two words".
Proof. reflexivity. Qed.

Example three_chunks_run :
  download_loop (simulated_provider [text_bytes "ab"; text_bytes "cd"; text_bytes "e"])
                BytesIO_new
  = Ok (mkBytesIO (text_bytes "abcde") 5).
Proof. reflexivity. Qed.

Example overwrite_run :
  getvalue (BytesIO_write (BytesIO_seek (mkBytesIO (text_bytes "abcde") 5) 1) (text_bytes "XY"))
  = text_bytes "aXYde".
Proof. reflexivity. Qed.

Example text_file_run :
  fst (get_file demo_world "f1" fresh_state)
  = Ok (mkFileContent "f1" "notes.txt" (text_of_string "plain notes")).
Proof. reflexivity. Qed.

Example pdf_run :
  fst (get_file demo_world "f4" fresh_state)
  = Ok (mkFileContent "f4" "paper.pdf"
          (text_of_string "first page" ++ newline ++ text_of_string "second page")).
Proof. reflexivity. Qed.

Example unicode_strip_run :
  strip ([8195; 12288] ++ text_of_string "wide" ++ [8232; 160])%N = text_of_string "wide".
Proof. reflexivity. Qed.

Example missing_file_run :
  fst (DriveService.get_file_content demo_world "f9" fresh_state)
  = Raise (HTTPException 400
             "Error getting file content: HttpError 404: File not found").
Proof. reflexivity. Qed.

Example startup_without_credentials_run :
  match start_service no_credentials_world with
  | Ok st => service (drive_service st) = None /\ length (log st) = 2%nat
  | Raise _ => False
  end.
Proof. split; reflexivity. Qed.

(** ** Helper lemmas *)

(** *** Facts on the buffer and the loop *)

Lemma at_end_new : at_end BytesIO_new.
Proof. reflexivity. Qed.

Lemma write_at_end fh data :
  at_end fh -> BytesIO_write fh data = mkBytesIO (buf fh ++ data) (pos fh + length data).
Proof.
  unfold at_end, BytesIO_write. intros Hpos.
  destruct data as [|b data].
  - destruct fh as [bf p]; simpl in *. subst p.
    rewrite app_nil_r. f_equal. simpl. lia.
  - rewrite Hpos, Nat.sub_diag. simpl repeat. rewrite app_nil_r.
    rewrite firstn_all. rewrite drop_ge by lia.
    now rewrite app_nil_r.
Qed.

Lemma write_keeps_at_end fh data : at_end fh -> at_end (BytesIO_write fh data).
Proof.
  intros H. rewrite (write_at_end _ _ H). unfold at_end in *; simpl.
  rewrite length_app. lia.
Qed.

Lemma download_loop_delivered request : forall fh data,
  at_end fh ->
  delivered request = Some data ->
  exists fh', download_loop request fh = Ok fh' /\
              at_end fh' /\ buf fh' = buf fh ++ data.
Proof.
  induction request as [d | d rest IH | e]; intros fh data Hfh Hd; simpl in *.
  - injection Hd as <-. eexists; split; [reflexivity|].
    split; [now apply write_keeps_at_end|]. now rewrite write_at_end.
  - destruct (delivered rest) as [more|] eqn:Hrest; [|discriminate].
    injection Hd as <-.
    destruct (IH (BytesIO_write fh d) more (write_keeps_at_end _ _ Hfh) eq_refl)
      as (fh' & Hrun & Hend & Hbuf).
    exists fh'. split; [exact Hrun|]. split; [exact Hend|].
    rewrite Hbuf, write_at_end by exact Hfh. simpl. now rewrite app_assoc.
  - discriminate.
Qed.

Lemma download_loop_error request : forall fh e,
  download_error request = Some e -> download_loop request fh = Raise e.
Proof.
  induction request as [d | d rest IH | e']; intros fh e He; simpl in *.
  - discriminate.
  - now apply IH.
  - now injection He as ->.
Qed.

Lemma delivered_or_error request :
  (exists data, delivered request = Some data /\ download_error request = None) \/
  (exists e, delivered request = None /\ download_error request = Some e).
Proof.
  induction request as [d | d rest IH | e]; simpl.
  - left; eauto.
  - destruct IH as [(data & -> & ->) | (e & -> & ->)]; [left | right]; eauto.
  - right; eauto.
Qed.

Lemma delivered_simulated chunks :
  delivered (simulated_provider chunks) = Some (concat chunks).
Proof.
  induction chunks as [|c rest IH]; [reflexivity|].
  destruct rest as [|c' rest'].
  - simpl. now rewrite app_nil_r.
  - change (simulated_provider (c :: c' :: rest'))
      with (Chunk c (simulated_provider (c' :: rest'))).
    change (delivered (Chunk c (simulated_provider (c' :: rest'))))
      with (match delivered (simulated_provider (c' :: rest')) with
            | Some more => Some (c ++ more)
            | None => None
            end).
    now rewrite IH.
Qed.
(** *** Facts on text *)

Lemma isspace_newline : isspace 10%N = true.
Proof. reflexivity. Qed.

Lemma rstrip_newline (s : Text) : rstrip (s ++ newline) = rstrip s.
Proof.
  induction s as [|c s IH].
  - reflexivity.
  - simpl. now rewrite IH.
Qed.

Lemma lstrip_app (s t : Text) :
  lstrip (s ++ t) =
  match lstrip s with
  | [] => lstrip t
  | _ => lstrip s ++ t
  end.
Proof.
  induction s as [|c s IH].
  - reflexivity.
  - simpl. destruct (isspace c); [exact IH | reflexivity].
Qed.

Lemma strip_newline (s : Text) : strip (s ++ newline) = strip s.
Proof.
  unfold strip. rewrite lstrip_app.
  destruct (lstrip s) as [|c r] eqn:E.
  - reflexivity.
  - apply rstrip_newline.
Qed.

(** The text the page loop builds, and how it relates to joining with
    newline separators. *)
Lemma extract_pages_texts w pages texts : forall text,
  Forall2 (fun page t => extract_text w page = Ok t) pages texts ->
  DriveService.extract_pages w pages text
  = Ok (text ++ fold_right (fun t acc => t ++ newline ++ acc) [] texts).
Proof.
  intros text H. revert text.
  induction H as [|page t pages texts Hp _ IH]; intros text; simpl.
  - now rewrite app_nil_r.
  - rewrite Hp. simpl. rewrite IH. f_equal.
    now rewrite <- !app_assoc.
Qed.

Lemma pages_text_join (texts : list Text) :
  texts <> [] ->
  fold_right (fun t acc => t ++ newline ++ acc) [] texts
  = join newline texts ++ newline.
Proof.
  induction texts as [|t rest IH]; intros Hne; [congruence|].
  destruct rest as [|t' rest'].
  - reflexivity.
  - change (join newline (t :: t' :: rest'))
      with (t ++ newline ++ join newline (t' :: rest')).
    change (fold_right (fun t acc => t ++ newline ++ acc) [] (t :: t' :: rest'))
      with (t ++ newline ++ fold_right (fun t acc => t ++ newline ++ acc) [] (t' :: rest')).
    rewrite IH by congruence. now rewrite <- !app_assoc.
Qed.

Lemma strip_pages_text (texts : list Text) :
  strip (fold_right (fun t acc => t ++ newline ++ acc) [] texts)
  = strip (join newline texts).
Proof.
  destruct texts as [|t rest] eqn:E; [reflexivity|].
  rewrite pages_text_join by congruence. apply strip_newline.
Qed.

(** *** Trimming, characterised without [strip] *)

Lemma lstrip_starts_clean (s : Text) : starts_clean (lstrip s).
Proof.
  induction s as [|c s IH]; simpl; [exact I|].
  destruct (isspace c) eqn:E; [exact IH | exact E].
Qed.

Lemma lstrip_clean (s : Text) : starts_clean s -> lstrip s = s.
Proof. destruct s as [|c s]; simpl; [reflexivity|]. now intros ->. Qed.

Lemma rstrip_starts_clean (s : Text) : starts_clean s -> starts_clean (rstrip s).
Proof.
  destruct s as [|c s]; simpl; [exact id|]. intros Hc.
  destruct (rstrip s); [rewrite Hc|]; exact Hc.
Qed.

Lemma rstrip_idempotent (s : Text) : rstrip (rstrip s) = rstrip s.
Proof.
  induction s as [|c s IH]; [reflexivity|].
  simpl. destruct (rstrip s) as [|d r] eqn:E.
  - destruct (isspace c) eqn:Hc; [reflexivity|]. simpl. now rewrite Hc.
  - change (rstrip (c :: d :: r))
      with (match rstrip (d :: r) with
            | [] => if isspace c then [] else [c]
            | a :: b => c :: a :: b
            end).
    now rewrite IH.
Qed.

Lemma strip_idempotent (s : Text) : strip (strip s) = strip s.
Proof.
  unfold strip.
  rewrite (lstrip_clean (rstrip (lstrip s))).
  - apply rstrip_idempotent.
  - apply rstrip_starts_clean, lstrip_starts_clean.
Qed.

Lemma lstrip_decompose (s : Text) :
  exists before, s = before ++ lstrip s /\ forallb isspace before = true.
Proof.
  induction s as [|c s (before & Hs & Hb)]; [now exists []|].
  simpl. destruct (isspace c) eqn:Hc.
  - exists (c :: before). simpl. rewrite Hc, Hb. split; [now f_equal | reflexivity].
  - now exists [].
Qed.

Lemma rstrip_decompose (s : Text) :
  exists after, s = rstrip s ++ after /\ forallb isspace after = true.
Proof.
  induction s as [|c s (after & Hs & Ha)]; [now exists []|].
  simpl. destruct (rstrip s) as [|d r] eqn:E.
  - simpl in Hs. subst s. destruct (isspace c) eqn:Hc.
    + exists (c :: after). simpl. now rewrite Hc, Ha.
    + now exists after.
  - exists after. split; [|exact Ha].
    change ((c :: d :: r) ++ after) with (c :: (d :: r) ++ after). now f_equal.
Qed.

Lemma rstrip_ends_clean (s : Text) c : last (rstrip s) = Some c -> isspace c = false.
Proof.
  revert c. induction s as [|d s IH]; intros c; simpl; [discriminate|].
  destruct (rstrip s) as [|e r] eqn:E.
  - destruct (isspace d) eqn:Hd; simpl; [discriminate|]. now intros [= <-].
  - intros H. apply IH. exact H.
Qed.

Lemma lstrip_whitespace (before t : Text) :
  forallb isspace before = true -> lstrip (before ++ t) = lstrip t.
Proof.
  induction before as [|c before IH]; [reflexivity|].
  simpl. intros H. apply andb_prop in H as [-> H]. now apply IH.
Qed.

Lemma rstrip_whitespace (after : Text) :
  forallb isspace after = true -> rstrip after = [].
Proof.
  induction after as [|c after IH]; [reflexivity|].
  simpl. intros H. apply andb_prop in H as [-> H]. now rewrite IH.
Qed.

Lemma rstrip_clean (r after : Text) :
  (forall c, last r = Some c -> isspace c = false) ->
  forallb isspace after = true ->
  rstrip (r ++ after) = r.
Proof.
  intros Hlast Hafter. induction r as [|c r IH].
  - now apply rstrip_whitespace.
  - simpl. destruct r as [|d r'].
    + simpl. rewrite (rstrip_whitespace _ Hafter).
      now rewrite (Hlast c eq_refl).
    + rewrite IH; [reflexivity|]. intros x Hx. apply Hlast. exact Hx.
Qed.

(** [strip] removes the leading and trailing whitespace, and only that. *)
Lemma strip_trimmed (s : Text) : trimmed_of s (strip s).
Proof.
  destruct (lstrip_decompose s) as (before & Hs & Hb).
  destruct (rstrip_decompose (lstrip s)) as (after & Hl & Ha).
  exists before, after. unfold strip.
  split; [now rewrite <- Hl|]. split; [exact Hb|]. split; [exact Ha|].
  split.
  - pose proof (rstrip_starts_clean _ (lstrip_starts_clean s)) as Hc.
    intros c Hh. destruct (rstrip (lstrip s)); [discriminate|].
    simpl in Hh. injection Hh as <-. exact Hc.
  - apply rstrip_ends_clean.
Qed.

(** The trimmed form of a text is unique. *)
Lemma trimmed_is_strip (s r : Text) : trimmed_of s r -> r = strip s.
Proof.
  intros (before & after & -> & Hb & Ha & Hhead & Hlast).
  unfold strip. rewrite (lstrip_whitespace _ _ Hb).
  destruct r as [|c r].
  - assert (Hblank : lstrip after = []).
    { rewrite <- (app_nil_r after). now rewrite lstrip_whitespace. }
    simpl. now rewrite Hblank.
  - rewrite lstrip_clean by (simpl; now apply Hhead).
    symmetry. now apply rstrip_clean.
Qed.

(** *** Running the monad *)

Lemma bind_run {A B} (m : M A) (k : A -> M B) (s : State) :
  bind m k s =
  match m s with
  | (Ok a, s') => k a s'
  | (Raise e, s') => (Raise e, s')
  end.
Proof. reflexivity. Qed.

Lemma try_except_ok {A} (body : M A) catches handler s a s' :
  body s = (Ok a, s') -> try_except body catches handler s = (Ok a, s').
Proof. unfold try_except. now intros ->. Qed.

Lemma try_except_caught {A} (body : M A) catches handler s e s' :
  body s = (Raise e, s') -> catches e = true ->
  try_except body catches handler s = handler e s'.
Proof. unfold try_except. now intros -> ->. Qed.

Lemma try_except_passed {A} (body : M A) catches handler s e s' :
  body s = (Raise e, s') -> catches e = false ->
  try_except body catches handler s = (Raise e, s').
Proof. unfold try_except. now intros -> ->. Qed.

Lemma truthy_configured (o : option string) :
  truthy o = match configured o with Some _ => true | None => false end.
Proof.
  destruct o as [s|]; simpl; [|reflexivity].
  now destruct (String.eqb s EmptyString).
Qed.

Lemma configured_Some (o : option string) s : configured o = Some s -> o = Some s.
Proof.
  destruct o as [t|]; simpl; [|discriminate].
  destruct (String.eqb t EmptyString); [discriminate | congruence].
Qed.

(** *** [authenticate] *)

Lemma authenticate_json_run w st :
  match configured (getenv w "GOOGLE_SERVICE_ACCOUNT_JSON") with
  | Some text =>
      DriveService.authenticate_json w st =
      match session_from w (InlineCredentials text) with
      | Ok svc => (Ok tt, authenticated_state (InlineCredentials text) svc st)
      | Raise e => (Raise e, st)
      end
  | None =>
      DriveService.authenticate_json w st = (Raise (ValueError no_credentials_message), st)
  end.
Proof.
  unfold DriveService.authenticate_json.
  destruct (getenv w "GOOGLE_SERVICE_ACCOUNT_JSON") as [text|];
    cbn [configured truthy]; [|reflexivity].
  destruct (String.eqb text EmptyString); cbn [negb]; [reflexivity|].
  unfold session_from, result_bind, bind, lift, set_self_service,
    logger_info, authenticated_state.
  destruct (json_loads w text) as [info|e]; [|reflexivity].
  destruct (from_service_account_info w info scopes) as [cred|e]; [|reflexivity].
  destruct (build w "drive" "v3" cred) as [svc|e]; reflexivity.
Qed.

Lemma authenticate_try_run w st :
  DriveService.authenticate_try w st =
  match session_from w (resolve_credentials w) with
  | Ok svc => (Ok tt, authenticated_state (resolve_credentials w) svc st)
  | Raise e => (Raise e, st)
  end.
Proof.
  unfold DriveService.authenticate_try, resolve_credentials.
  pose proof (authenticate_json_run w st) as Hjson.
  destruct (getenv w "GOOGLE_APPLICATION_CREDENTIALS") as [path|];
    cbn [configured truthy].
  - destruct (String.eqb path EmptyString); cbn [negb andb].
    + destruct (configured (getenv w "GOOGLE_SERVICE_ACCOUNT_JSON")); exact Hjson.
    + destruct (path_exists w path).
      * unfold session_from, result_bind, bind, lift, set_self_service,
          logger_info, authenticated_state.
        destruct (from_service_account_file w path scopes) as [cred|e]; [|reflexivity].
        destruct (build w "drive" "v3" cred) as [svc|e]; reflexivity.
      * destruct (configured (getenv w "GOOGLE_SERVICE_ACCOUNT_JSON")); exact Hjson.
  - destruct (configured (getenv w "GOOGLE_SERVICE_ACCOUNT_JSON")); exact Hjson.
Qed.

Lemma authenticate_run w st :
  DriveService.authenticate w st =
  match session_from w (resolve_credentials w) with
  | Ok svc => (Ok tt, authenticated_state (resolve_credentials w) svc st)
  | Raise e =>
      (Raise (HTTPException 500 ("Authentication failed: " +:+ str w e)),
       rejected_state w e st)
  end.
Proof.
  unfold DriveService.authenticate, try_except.
  rewrite authenticate_try_run.
  destruct (session_from w (resolve_credentials w)) as [svc|e]; reflexivity.
Qed.

Lemma authenticate_calls w st : calls (snd (DriveService.authenticate w st)) = calls st.
Proof.
  rewrite authenticate_run.
  now destruct (session_from w (resolve_credentials w)).
Qed.

Lemma authenticate_folder w st :
  folder_id (drive_service (snd (DriveService.authenticate w st))) = folder_id (drive_service st).
Proof.
  rewrite authenticate_run.
  now destruct (session_from w (resolve_credentials w)).
Qed.

Lemma authenticate_ok_session w st st' :
  DriveService.authenticate w st = (Ok tt, st') ->
  exists svc, service (drive_service st') = Some svc.
Proof.
  rewrite authenticate_run.
  destruct (session_from w (resolve_credentials w)) as [svc|e]; [|discriminate].
  intros [= <-]. now exists svc.
Qed.

Lemma authenticate_raise_session w st e st' :
  DriveService.authenticate w st = (Raise e, st') ->
  drive_service st' = drive_service st /\ exists detail, e = HTTPException 500 detail.
Proof.
  rewrite authenticate_run.
  destruct (session_from w (resolve_credentials w)) as [svc|e0]; [discriminate|].
  intros [= <- <-]. split; [reflexivity | eauto].
Qed.

Lemma ensure_authenticated_session w st api :
  service (drive_service st) = Some api ->
  DriveService.ensure_authenticated w st = (Ok tt, st).
Proof.
  intros H. unfold DriveService.ensure_authenticated, bind, self_service.
  now rewrite H.
Qed.

Lemma ensure_authenticated_none w st :
  service (drive_service st) = None ->
  DriveService.ensure_authenticated w st = DriveService.authenticate w st.
Proof.
  intros H. unfold DriveService.ensure_authenticated, bind, self_service.
  now rewrite H.
Qed.

Lemma ensure_authenticated_calls w st :
  calls (snd (DriveService.ensure_authenticated w st)) = calls st.
Proof.
  destruct (service (drive_service st)) as [api|] eqn:H.
  - now rewrite (ensure_authenticated_session _ _ _ H).
  - rewrite (ensure_authenticated_none _ _ H). apply authenticate_calls.
Qed.

Lemma ensure_authenticated_folder w st :
  folder_id (drive_service (snd (DriveService.ensure_authenticated w st)))
  = folder_id (drive_service st).
Proof.
  destruct (service (drive_service st)) as [api|] eqn:H.
  - now rewrite (ensure_authenticated_session _ _ _ H).
  - rewrite (ensure_authenticated_none _ _ H). apply authenticate_folder.
Qed.

(** *** The extraction routines *)

Lemma self_service_files_run st api :
  service (drive_service st) = Some api -> self_service_files st = (Ok api, st).
Proof.
  intros H. unfold self_service_files, bind, self_service, ret. now rewrite H.
Qed.

Lemma download_delivered req data :
  delivered req = Some data ->
  exists fh, download_loop req BytesIO_new = Ok fh /\ getvalue fh = data
             /\ BytesIO_read (BytesIO_seek fh 0) = data.
Proof.
  intros H.
  destruct (download_loop_delivered req BytesIO_new data at_end_new H)
    as (fh & Hrun & _ & Hbuf).
  exists fh. split; [exact Hrun|]. simpl in Hbuf.
  split; [exact Hbuf|]. unfold BytesIO_read, BytesIO_seek; simpl.
  now rewrite drop_0.
Qed.

Lemma export_as_run w st api file_id mime_type data :
  service (drive_service st) = Some api ->
  delivered (files_export_media api file_id mime_type) = Some data ->
  DriveService.export_as w file_id mime_type st
  = (decode_utf8 w data, with_call st (ExportRequest file_id mime_type)).
Proof.
  intros Hs Hd.
  destruct (download_delivered _ _ Hd) as (fh & Hrun & Hval & _).
  unfold DriveService.export_as.
  rewrite bind_run, (self_service_files_run _ _ Hs).
  unfold bind, provider_request, download, lift.
  rewrite Hrun, Hval. reflexivity.
Qed.

Lemma download_text_file_run w st api file_id data :
  service (drive_service st) = Some api ->
  delivered (files_get_media api file_id) = Some data ->
  DriveService._download_text_file w file_id st
  = (decode_utf8 w data, with_call st (MediaRequest file_id)).
Proof.
  intros Hs Hd.
  destruct (download_delivered _ _ Hd) as (fh & Hrun & Hval & _).
  unfold DriveService._download_text_file.
  rewrite bind_run, (self_service_files_run _ _ Hs).
  unfold bind, provider_request, download, lift.
  rewrite Hrun, Hval. reflexivity.
Qed.

Lemma extract_pdf_text_run w st api file_id data pages texts :
  service (drive_service st) = Some api ->
  delivered (files_get_media api file_id) = Some data ->
  PdfReader_pages w data = Ok pages ->
  Forall2 (fun page t => extract_text w page = Ok t) pages texts ->
  DriveService._extract_pdf_text w file_id st
  = (Ok (strip (join newline texts)), with_call st (MediaRequest file_id)).
Proof.
  intros Hs Hd Hp Ht.
  destruct (download_delivered _ _ Hd) as (fh & Hrun & _ & Hread).
  unfold DriveService._extract_pdf_text.
  rewrite bind_run, (self_service_files_run _ _ Hs).
  unfold bind, provider_request, download, lift, ret.
  rewrite Hrun, Hread, Hp, (extract_pages_texts _ _ _ [] Ht).
  rewrite app_nil_l, strip_pages_text. reflexivity.
Qed.

(** [get_file_content] once the session exists and the metadata is fetched. *)
Lemma get_file_content_try_run w st api file_id meta name mime_type :
  service (drive_service st) = Some api ->
  files_get api file_id = Ok meta ->
  meta !! "name" = Some name ->
  meta !! "mimeType" = Some mime_type ->
  DriveService.get_file_content_try w file_id st
  = bind (DriveService.extract_by_type w file_id mime_type)
         (fun content => ret (mkFileContent file_id name content))
         (with_call st (GetRequest file_id)).
Proof.
  intros Hs Hg Hn Hm. unfold DriveService.get_file_content_try.
  rewrite bind_run, (self_service_files_run _ _ Hs).
  unfold provider_request, lift, getitem.
  rewrite bind_run. rewrite bind_run, Hg. rewrite bind_run, Hn.
  rewrite bind_run, Hm. reflexivity.
Qed.

Lemma get_file_content_run w st st1 file_id :
  DriveService.ensure_authenticated w st = (Ok tt, st1) ->
  DriveService.get_file_content w file_id st
  = try_except (DriveService.get_file_content_try w file_id) is_HttpError
      (fun e =>
         logger_error ("Error getting file content: " +:+ str w e);;
         raise (HTTPException 400 ("Error getting file content: " +:+ str w e))) st1.
Proof.
  intros H. unfold DriveService.get_file_content. now rewrite bind_run, H.
Qed.

(** *** Requests sent to the provider *)

Lemma quiet_ret {A} (a : A) : quiet (ret a).
Proof. intros st. reflexivity. Qed.

Lemma quiet_raise {A} (e : exn) : quiet (@raise A e).
Proof. intros st. reflexivity. Qed.

Lemma quiet_lift {A} (r : result A) : quiet (lift r).
Proof. intros st. reflexivity. Qed.

Lemma quiet_logger_info msg : quiet (logger_info msg).
Proof. intros st. reflexivity. Qed.

Lemma quiet_logger_error msg : quiet (logger_error msg).
Proof. intros st. reflexivity. Qed.

Lemma quiet_bind {A B} (m : M A) (k : A -> M B) :
  quiet m -> (forall a, quiet (k a)) -> quiet (bind m k).
Proof.
  intros Hm Hk st. rewrite bind_run. specialize (Hm st).
  destruct (m st) as [[a|e] st']; simpl in *; [|exact Hm].
  now rewrite Hk.
Qed.

Lemma quiet_try_except {A} (body : M A) catches handler :
  quiet body -> (forall e, quiet (handler e)) -> quiet (try_except body catches handler).
Proof.
  intros Hm Hh st. unfold try_except. specialize (Hm st).
  destruct (body st) as [[a|e] st']; simpl in *; [exact Hm|].
  destruct (catches e); [|exact Hm]. now rewrite Hh.
Qed.

Lemma quiet_self_service_files : quiet self_service_files.
Proof. intros st. unfold self_service_files, bind, self_service. now destruct (service _). Qed.

Lemma quiet_download req : quiet (download req).
Proof. apply quiet_lift. Qed.

Lemma quiet_authenticate w : quiet (DriveService.authenticate w).
Proof. intros st. apply authenticate_calls. Qed.

Lemma quiet_ensure_authenticated w : quiet (DriveService.ensure_authenticated w).
Proof. intros st. apply ensure_authenticated_calls. Qed.

Create HintDb quiet.

#[local] Hint Resolve quiet_ret quiet_raise quiet_lift quiet_logger_info
  quiet_logger_error quiet_self_service_files quiet_download
  quiet_authenticate quiet_ensure_authenticated : quiet.

Lemma issues_quiet {A} (m : M A) st allowed : quiet m -> issues m st allowed.
Proof.
  intros H. exists []. rewrite H, app_nil_r. split; [reflexivity | apply sublist_nil_l].
Qed.

Lemma issues_weaken {A} (m : M A) st l l' :
  issues m st l -> l `sublist_of` l' -> issues m st l'.
Proof.
  intros (new & Hc & Hs) Hl. exists new. split; [exact Hc|]. now transitivity l.
Qed.

Lemma issues_after_quiet {A B} (m : M A) (k : A -> M B) st allowed :
  quiet m ->
  (forall a st', m st = (Ok a, st') -> issues (k a) st' allowed) ->
  issues (bind m k) st allowed.
Proof.
  intros Hm Hk. unfold issues. rewrite bind_run. specialize (Hm st).
  destruct (m st) as [[a|e] st'] eqn:Hrun; simpl in *.
  - destruct (Hk a st' eq_refl) as (new & Hc & Hs).
    exists new. now rewrite Hc, Hm.
  - exists []. rewrite Hm, app_nil_r. split; [reflexivity | apply sublist_nil_l].
Qed.

Lemma issues_request {B} (c : api_call) (k : unit -> M B) st allowed :
  issues (k tt) (with_call st c) allowed ->
  issues (bind (provider_request c) k) st (c :: allowed).
Proof.
  intros (new & Hc & Hs). exists (c :: new).
  rewrite bind_run. simpl. rewrite Hc. simpl. rewrite <- app_assoc.
  split; [reflexivity | now constructor].
Qed.

Lemma issues_then_quiet {A B} (m : M A) (k : A -> M B) st allowed :
  issues m st allowed -> (forall a, quiet (k a)) -> issues (bind m k) st allowed.
Proof.
  intros (new & Hc & Hs) Hk. exists new. rewrite bind_run.
  destruct (m st) as [[a|e] st']; simpl in *; [|now split].
  now rewrite Hk.
Qed.

Lemma issues_try_except {A} (body : M A) catches handler st allowed :
  issues body st allowed -> (forall e, quiet (handler e)) ->
  issues (try_except body catches handler) st allowed.
Proof.
  intros (new & Hc & Hs) Hh. exists new. unfold try_except.
  destruct (body st) as [[a|e] st']; simpl in *; [now split|].
  destruct (catches e); [|now split]. now rewrite Hh.
Qed.

Lemma export_as_issues w file_id mime_type st :
  issues (DriveService.export_as w file_id mime_type) st [ExportRequest file_id mime_type].
Proof.
  unfold DriveService.export_as.
  apply issues_after_quiet; [auto with quiet|]. intros api st' _.
  apply issues_request, issues_quiet, quiet_bind; auto with quiet.
Qed.

Lemma media_issues w file_id st :
  issues (DriveService._extract_pdf_text w file_id) st [MediaRequest file_id] /\
  issues (DriveService._download_text_file w file_id) st [MediaRequest file_id].
Proof.
  split.
  - unfold DriveService._extract_pdf_text.
    apply issues_after_quiet; [auto with quiet|]. intros api st' _.
    apply issues_request, issues_quiet.
    repeat (apply quiet_bind; [auto with quiet | intros ?]). auto with quiet.
  - unfold DriveService._download_text_file.
    apply issues_after_quiet; [auto with quiet|]. intros api st' _.
    apply issues_request, issues_quiet, quiet_bind; auto with quiet.
Qed.

Lemma extract_by_type_issues w file_id mime_type st :
  issues (DriveService.extract_by_type w file_id mime_type) st
         [ExportRequest file_id "text/plain"; ExportRequest file_id "text/csv";
          MediaRequest file_id].
Proof.
  unfold DriveService.extract_by_type.
  repeat match goal with |- context [if ?b then _ else _] => destruct b end.
  - eapply issues_weaken; [apply export_as_issues|]. repeat constructor.
  - eapply issues_weaken; [apply export_as_issues|]. repeat constructor.
  - eapply issues_weaken; [apply export_as_issues|]. repeat constructor.
  - eapply issues_weaken; [apply media_issues|]. repeat constructor.
  - eapply issues_weaken; [apply media_issues|]. repeat constructor.
  - apply issues_quiet; auto with quiet.
Qed.

Lemma get_file_content_issues w file_id st :
  issues (DriveService.get_file_content w file_id) st (content_requests file_id).
Proof.
  unfold DriveService.get_file_content.
  apply issues_after_quiet; [auto with quiet|]. intros _ st1 _.
  apply issues_try_except.
  2:{ intros e. apply quiet_bind; auto with quiet. }
  unfold DriveService.get_file_content_try.
  apply issues_after_quiet; [auto with quiet|]. intros api st2 _.
  apply issues_request.
  repeat (apply issues_after_quiet; [auto with quiet|]; intros ? ? _).
  apply issues_then_quiet; [apply extract_by_type_issues | auto with quiet].
Qed.

Lemma list_files_issues w st :
  issues (DriveService.list_files w) st (list_requests st).
Proof.
  unfold DriveService.list_files.
  apply issues_after_quiet; [auto with quiet|]. intros [] st1 Hauth.
  pose proof (ensure_authenticated_folder w st) as Hfolder.
  rewrite Hauth in Hfolder. simpl in Hfolder.
  apply issues_try_except.
  2:{ intros e. apply quiet_bind; auto with quiet. }
  unfold DriveService.list_files_try.
  apply issues_after_quiet; [intros ?; reflexivity|]. intros folder st2 Hf.
  unfold self_folder_id in Hf. injection Hf as <- <-. rewrite Hfolder.
  apply issues_after_quiet; [auto with quiet|]. intros _ st3 _.
  apply issues_after_quiet; [auto with quiet|]. intros api st4 _.
  apply issues_request, issues_quiet.
  repeat (apply quiet_bind; [auto with quiet | intros ?]). auto with quiet.
Qed.

(** ** The claims *)

(** C6. Whatever way a content is cut into chunks, the download loop ends
    with the same buffer as when the content arrives in a single chunk, and
    that buffer holds the content; in particular three chunks and one chunk
    give identical bytes. *)
Theorem chunked_download_accumulates (chunks : list bytes) :
  (exists fh,
     download_loop (simulated_provider chunks) BytesIO_new = Ok fh /\
     download_loop (simulated_provider [concat chunks]) BytesIO_new = Ok fh /\
     getvalue fh = concat chunks) /\
  (forall a b c : bytes,
     download_loop (Chunk a (Chunk b (LastChunk c))) BytesIO_new
     = download_loop (LastChunk (a ++ b ++ c)) BytesIO_new).
Proof.
  assert (Hall : forall req data, delivered req = Some data ->
            download_loop req BytesIO_new = Ok (mkBytesIO data (length data))).
  { intros req data Hd.
    destruct (download_loop_delivered req BytesIO_new data at_end_new Hd)
      as ([bf p] & Hrun & Hend & Hbuf).
    unfold at_end in Hend. simpl in *. subst. exact Hrun. }
  split.
  - exists (mkBytesIO (concat chunks) (length (concat chunks))).
    split; [apply Hall, delivered_simulated|].
    split; [|reflexivity].
    apply Hall. reflexivity.
  - intros a b c.
    rewrite (Hall (Chunk a (Chunk b (LastChunk c))) (a ++ b ++ c) eq_refl).
    now rewrite (Hall (LastChunk (a ++ b ++ c)) (a ++ b ++ c) eq_refl).
Qed.

(** C4. [authenticate] uses the credential source resolved in the order of
    the specification (an existing configured file, else configured inline
    text, else none): it establishes the session built from that source, or
    fails with a 500 error carrying the cause, which is the missing-credentials
    message when there is no source; it never fails in another way. *)
Theorem authenticate_resolution_order (w : World) (st : State) :
  match session_from w (resolve_credentials w) with
  | Ok svc =>
      fst (DriveService.authenticate w st) = Ok tt /\
      service (drive_service (snd (DriveService.authenticate w st))) = Some svc
  | Raise e =>
      fst (DriveService.authenticate w st)
      = Raise (HTTPException 500 ("Authentication failed: " +:+ str w e)) /\
      drive_service (snd (DriveService.authenticate w st)) = drive_service st
  end /\
  match resolve_credentials w with
  | NoCredentials =>
      fst (DriveService.authenticate w st)
      = Raise (HTTPException 500 ("Authentication failed: " +:+ no_credentials_message))
  | _ => True
  end /\
  match fst (DriveService.authenticate w st) with
  | Ok _ => True
  | Raise e => exists detail, e = HTTPException 500 detail
  end.
Proof.
  rewrite authenticate_run. repeat split.
  - destruct (session_from w (resolve_credentials w)); split; reflexivity.
  - destruct (resolve_credentials w); try exact I. reflexivity.
  - destruct (session_from w (resolve_credentials w)); simpl; eauto.
Qed.

(** C8. Without the folder identifier in the environment, constructing the
    service object raises, so loading the module fails and the process never
    reaches the point where it serves requests. *)
Theorem missing_folder_id_is_fatal (w : World) :
  getenv w "GDRIVE_FOLDER_ID" = None ->
  DriveService.__init__ w
    = Raise (ValueError "GDRIVE_FOLDER_ID environment variable is required") /\
  start_service w
    = Raise (ValueError "GDRIVE_FOLDER_ID environment variable is required").
Proof.
  intros H. unfold start_service, load_module, DriveService.__init__.
  rewrite H. split; reflexivity.
Qed.

Lemma missing_folder_id_is_fatal_witness :
  getenv empty_world "GDRIVE_FOLDER_ID" = None /\
  start_service empty_world
    = Raise (ValueError "GDRIVE_FOLDER_ID environment variable is required").
Proof.
  split; [reflexivity|].
  apply (missing_folder_id_is_fatal empty_world). reflexivity.
Defined.

(** C7. For a native word-processor document, the get-content operation
    returns the bytes the provider's export to plain text delivers, decoded
    as UTF-8 and otherwise untouched; the endpoint returns the same value. *)
Theorem get_file_content_document
    (w : World) (st st1 : State) (api : Resource)
    (file_id : string) (meta : gmap string string) (name : string)
    (data : bytes) (text : Text) :
  DriveService.ensure_authenticated w st = (Ok tt, st1) ->
  service (drive_service st1) = Some api ->
  files_get api file_id = Ok meta ->
  meta !! "name" = Some name ->
  meta !! "mimeType" = Some "application/vnd.google-apps.document" ->
  delivered (files_export_media api file_id "text/plain") = Some data ->
  decode_utf8 w data = Ok text ->
  fst (DriveService.get_file_content w file_id st) = Ok (mkFileContent file_id name text) /\
  fst (get_file w file_id st) = Ok (mkFileContent file_id name text).
Proof.
  intros Hauth Hs Hg Hn Hm Hd Hdec.
  assert (Hop : DriveService.get_file_content w file_id st
                = (Ok (mkFileContent file_id name text),
                   with_call (with_call st1 (GetRequest file_id))
                             (ExportRequest file_id "text/plain"))).
  { rewrite (get_file_content_run _ _ _ _ Hauth).
    apply try_except_ok.
    rewrite (get_file_content_try_run _ _ _ _ _ _ _ Hs Hg Hn Hm).
    rewrite bind_run.
    change (DriveService.extract_by_type w file_id "application/vnd.google-apps.document")
      with (DriveService.export_as w file_id "text/plain").
    rewrite (export_as_run w (with_call st1 (GetRequest file_id)) api file_id
               "text/plain" data Hs Hd), Hdec.
    reflexivity. }
  split.
  - now rewrite Hop.
  - unfold get_file. now rewrite (try_except_ok _ _ _ _ _ _ Hop).
Qed.

Lemma get_file_content_document_witness :
  fst (DriveService.get_file_content demo_world "f3" fresh_state)
    = Ok (mkFileContent "f3" "report" (text_of_string "quarterly report body")) /\
  fst (get_file demo_world "f3" fresh_state)
    = Ok (mkFileContent "f3" "report" (text_of_string "quarterly report body")).
Proof.
  apply (get_file_content_document demo_world fresh_state
           (snd (DriveService.ensure_authenticated demo_world fresh_state))
           demo_resource "f3"
           {[ "id" := "f3"; "name" := "report";
              "mimeType" := "application/vnd.google-apps.document" ]}
           "report" (text_bytes "quarterly report body"));
    reflexivity.
Defined.

(** C3. For a PDF of any number of pages, the get-content operation
    returns the per-page extracted texts joined by newline separators with
    the leading and trailing whitespace removed: the joined text is the
    returned text between two runs of whitespace, the returned text neither
    begins nor ends with whitespace, and no other text is in that relation
    to the joined text.  The endpoint returns the same value. *)
Theorem get_file_content_pdf
    (w : World) (st st1 : State) (api : Resource)
    (file_id : string) (meta : gmap string string) (name : string)
    (data : bytes) (pages : list (Page w)) (texts : list Text) :
  DriveService.ensure_authenticated w st = (Ok tt, st1) ->
  service (drive_service st1) = Some api ->
  files_get api file_id = Ok meta ->
  meta !! "name" = Some name ->
  meta !! "mimeType" = Some "application/pdf" ->
  delivered (files_get_media api file_id) = Some data ->
  PdfReader_pages w data = Ok pages ->
  Forall2 (fun page t => extract_text w page = Ok t) pages texts ->
  exists trimmed : Text,
    fst (DriveService.get_file_content w file_id st)
      = Ok (mkFileContent file_id name trimmed) /\
    fst (get_file w file_id st) = Ok (mkFileContent file_id name trimmed) /\
    trimmed_of (join newline texts) trimmed /\
    (forall r, trimmed_of (join newline texts) r -> r = trimmed).
Proof.
  intros Hauth Hs Hg Hn Hm Hd Hp Ht.
  assert (Hop : DriveService.get_file_content w file_id st
                = (Ok (mkFileContent file_id name (strip (join newline texts))),
                   with_call (with_call st1 (GetRequest file_id))
                             (MediaRequest file_id))).
  { rewrite (get_file_content_run _ _ _ _ Hauth).
    apply try_except_ok.
    rewrite (get_file_content_try_run _ _ _ _ _ _ _ Hs Hg Hn Hm).
    rewrite bind_run.
    change (DriveService.extract_by_type w file_id "application/pdf")
      with (DriveService._extract_pdf_text w file_id).
    rewrite (extract_pdf_text_run w (with_call st1 (GetRequest file_id)) api
               file_id data pages texts Hs Hd Hp Ht).
    reflexivity. }
  exists (strip (join newline texts)).
  split; [now rewrite Hop|].
  split; [unfold get_file; now rewrite (try_except_ok _ _ _ _ _ _ Hop)|].
  split; [apply strip_trimmed | apply trimmed_is_strip].
Qed.

Lemma get_file_content_pdf_witness :
  exists trimmed : Text,
    fst (DriveService.get_file_content demo_world "f4" fresh_state)
      = Ok (mkFileContent "f4" "paper.pdf" trimmed) /\
    fst (get_file demo_world "f4" fresh_state)
      = Ok (mkFileContent "f4" "paper.pdf" trimmed) /\
    trimmed_of (join newline [text_of_string "  first page";
                              text_of_string "second page "]) trimmed /\
    (forall r, trimmed_of (join newline [text_of_string "  first page";
                                         text_of_string "second page "]) r ->
               r = trimmed).
Proof.
  apply (get_file_content_pdf demo_world fresh_state
           (snd (DriveService.ensure_authenticated demo_world fresh_state))
           demo_resource "f4"
           {[ "id" := "f4"; "name" := "paper.pdf"; "mimeType" := "application/pdf" ]}
           "paper.pdf" (text_bytes "%PDF-1.4")
           ["  first page"; "second page "]
           [text_of_string "  first page"; text_of_string "second page "]);
    try reflexivity.
  repeat constructor.
Defined.

(** Entries that carry both keys are rendered one for one. *)
Lemma to_file_infos_verbatim (files : list (gmap string string)) :
  Forall (fun file => is_Some (file !! "id") /\ is_Some (file !! "name")) files ->
  exists infos, DriveService.to_file_infos files = Ok infos /\
                Forall2 same_entry files infos.
Proof.
  induction 1 as [|file rest [[id Hid] [name Hname]] _ (infos & Hrest & Hall)].
  - exists []. split; [reflexivity | constructor].
  - exists (mkFileInfo id name :: infos). split.
    + simpl. unfold getitem. rewrite Hid, Hname. simpl. now rewrite Hrest.
    + constructor; [split; assumption | exact Hall].
Qed.

(** C5. For every configured folder identifier, the list operation sends
    the provider exactly one request, the query for the non-trashed entries
    whose parent is that folder, and returns the entries of the answer one
    for one as {id, name} records, in the provider's order; the endpoint
    returns the same list. *)
Theorem list_files_verbatim
    (w : World) (st st1 : State) (api : Resource)
    (results : option (list (gmap string string))) :
  DriveService.ensure_authenticated w st = (Ok tt, st1) ->
  service (drive_service st1) = Some api ->
  files_list api ("'" +:+ folder_id (drive_service st) +:+ "' in parents and trashed=false")
             "files(id, name, mimeType)" = Ok results ->
  Forall (fun file => is_Some (file !! "id") /\ is_Some (file !! "name"))
         (default [] results) ->
  exists infos st2,
    DriveService.list_files w st = (Ok infos, st2) /\
    fst (list_files w st) = Ok infos /\
    calls st2 = calls st ++
                [ListRequest ("'" +:+ folder_id (drive_service st)
                              +:+ "' in parents and trashed=false")
                             "files(id, name, mimeType)"] /\
    Forall2 same_entry (default [] results) infos.
Proof.
  intros Hauth Hs Hl Hkeys.
  destruct (to_file_infos_verbatim _ Hkeys) as (infos & Hinfos & Hsame).
  pose proof (ensure_authenticated_folder w st) as Hfolder.
  pose proof (ensure_authenticated_calls w st) as Hcalls.
  rewrite Hauth in Hfolder, Hcalls. simpl in Hfolder, Hcalls.
  set (query := "'" +:+ folder_id (drive_service st) +:+ "' in parents and trashed=false") in *.
  set (found := "Found " +:+ str_len w (length (default [] results))
                +:+ " files: " +:+ str_files w (default [] results)).
  set (st2 := with_log (with_call (with_log st1 (INFO ("Searching with query: " +:+ query)))
                                  (ListRequest query "files(id, name, mimeType)"))
                       (INFO found)).
  assert (Hop : DriveService.list_files w st = (Ok infos, st2)).
  { unfold DriveService.list_files. rewrite bind_run, Hauth.
    apply try_except_ok. unfold DriveService.list_files_try.
    rewrite bind_run. unfold self_folder_id. rewrite Hfolder. fold query.
    rewrite bind_run. unfold logger_info at 1.
    rewrite bind_run, (self_service_files_run _ api) by exact Hs.
    rewrite bind_run. unfold provider_request.
    rewrite bind_run. unfold lift at 1. rewrite Hl.
    rewrite bind_run. unfold logger_info. fold found.
    unfold lift. now rewrite Hinfos. }
  exists infos, st2. split; [exact Hop|].
  split; [unfold list_files; now rewrite (try_except_ok _ _ _ _ _ _ Hop)|].
  split; [|exact Hsame].
  unfold st2. simpl. now rewrite Hcalls.
Qed.

Lemma list_files_verbatim_witness :
  exists infos st2,
    DriveService.list_files demo_world fresh_state = (Ok infos, st2) /\
    fst (list_files demo_world fresh_state) = Ok infos /\
    calls st2 = [ListRequest "'folder1' in parents and trashed=false"
                             "files(id, name, mimeType)"] /\
    Forall2 same_entry demo_files infos.
Proof.
  apply (list_files_verbatim demo_world fresh_state
           (snd (DriveService.ensure_authenticated demo_world fresh_state))
           demo_resource (Some demo_files)); try reflexivity.
  repeat constructor; eexists; reflexivity.
Defined.

(** *** Unsupported types and provider errors, method and endpoint *)

Lemma extract_by_type_unsupported w file_id mime_type st :
  supported_type mime_type = false ->
  DriveService.extract_by_type w file_id mime_type st
  = (Raise (HTTPException 400 ("Unsupported file type: " +:+ mime_type)), st).
Proof.
  unfold supported_type, DriveService.extract_by_type. intros H.
  repeat (apply orb_false_elim in H; destruct H as [H ?]).
  repeat match goal with Hb : _ = false |- _ => rewrite Hb; clear Hb end.
  reflexivity.
Qed.

(** C1. A file whose declared type is none of the supported ones: the
    operation inside the service object raises the 400 error naming the
    type, but the endpoint [GET /file/{file_id}] catches that error like any
    other exception and raises a 500 error in its place, so the response
    does not carry status 400. *)
Theorem get_file_unsupported_type_answers_500
    (w : World) (st st1 : State) (api : Resource)
    (file_id : string) (meta : gmap string string) (name mime_type : string) :
  DriveService.ensure_authenticated w st = (Ok tt, st1) ->
  service (drive_service st1) = Some api ->
  files_get api file_id = Ok meta ->
  meta !! "name" = Some name ->
  meta !! "mimeType" = Some mime_type ->
  supported_type mime_type = false ->
  fst (DriveService.get_file_content w file_id st)
    = Raise (HTTPException 400 ("Unsupported file type: " +:+ mime_type)) /\
  fst (get_file w file_id st)
    = Raise (HTTPException 500
               (str_HTTPException w 400 ("Unsupported file type: " +:+ mime_type))) /\
  status_of (fst (get_file w file_id st)) = Some 500%Z.
Proof.
  intros Hauth Hs Hg Hn Hm Hu.
  assert (Hop : DriveService.get_file_content w file_id st
                = (Raise (HTTPException 400 ("Unsupported file type: " +:+ mime_type)),
                   with_call st1 (GetRequest file_id))).
  { rewrite (get_file_content_run _ _ _ _ Hauth).
    apply try_except_passed; [|reflexivity].
    rewrite (get_file_content_try_run _ _ _ _ _ _ _ Hs Hg Hn Hm).
    rewrite bind_run. now rewrite extract_by_type_unsupported. }
  assert (Hend : fst (get_file w file_id st)
                 = Raise (HTTPException 500
                            (str_HTTPException w 400
                               ("Unsupported file type: " +:+ mime_type)))).
  { unfold get_file.
    rewrite (try_except_caught _ _ _ _ _ _ Hop eq_refl). reflexivity. }
  split; [now rewrite Hop|]. split; [exact Hend|]. now rewrite Hend.
Qed.

Lemma get_file_unsupported_type_answers_500_witness :
  fst (DriveService.get_file_content demo_world "f2" fresh_state)
    = Raise (HTTPException 400 "Unsupported file type: application/zip") /\
  fst (get_file demo_world "f2" fresh_state)
    = Raise (HTTPException 500 "400: Unsupported file type: application/zip") /\
  status_of (fst (get_file demo_world "f2" fresh_state)) = Some 500%Z.
Proof.
  apply (get_file_unsupported_type_answers_500 demo_world fresh_state
           (snd (DriveService.ensure_authenticated demo_world fresh_state))
           demo_resource "f2"
           {[ "id" := "f2"; "name" := "archive.zip"; "mimeType" := "application/zip" ]}
           "archive.zip" "application/zip");
    reflexivity.
Defined.




(** C9. Whatever the operation behind [GET /files] or [GET /file/{file_id}]
    raises, the handler catches it and raises an HTTP error whose detail is
    the text of the exception, and a value is returned as it is: a request
    always ends in a response.  While handling one request each provider
    request is sent at most once, so nothing is retried. *)
Theorem handlers_convert_every_error (w : World) (st : State) (file_id : string) :
  converted w (fst (DriveService.list_files w st)) (fst (list_files w st)) /\
  converted w (fst (DriveService.get_file_content w file_id st))
              (fst (get_file w file_id st)) /\
  issues (list_files w) st (list_requests st) /\
  issues (get_file w file_id) st (content_requests file_id) /\
  NoDup (list_requests st) /\
  NoDup (content_requests file_id).
Proof.
  assert (Hconv : forall A (op : M A) (prefix : string),
            converted w (fst (op st))
              (fst (try_except op is_Exception
                      (fun e => logger_error (prefix +:+ str w e);;
                                raise (HTTPException 500 (str w e))) st))).
  { intros A op prefix. unfold try_except.
    destruct (op st) as [[a|e] st']; simpl; reflexivity. }
  split; [apply Hconv|]. split; [apply Hconv|].
  split; [|split; [|split]].
  - unfold list_files. apply issues_try_except; [apply list_files_issues|].
    intros e. apply quiet_bind; auto with quiet.
  - unfold get_file. apply issues_try_except; [apply get_file_content_issues|].
    intros e. apply quiet_bind; auto with quiet.
  - apply NoDup_singleton.
  - unfold content_requests.
    repeat (constructor;
            [intros Hin;
             repeat (apply elem_of_cons in Hin as [Hin|Hin]; [discriminate|]);
             now apply elem_of_nil in Hin|]).
    constructor.
Qed.

(** C10. When authentication fails in the startup hook, the hook returns
    normally after logging the failure, the service starts with no session
    and without having sent anything to the provider, and the next list or
    get-content request begins by running authentication again: it continues
    as a request with a session when that succeeds and fails with the
    authentication error when it does not. *)
Theorem startup_failure_is_logged_and_retried (w : World) (st0 : State) (e : exn) :
  load_module w = Ok st0 ->
  fst (DriveService.authenticate w st0) = Raise e ->
  exists st1,
    startup_event w st0 = (Ok tt, st1) /\
    start_service w = Ok st1 /\
    service (drive_service st1) = None /\
    log st1 = log (snd (DriveService.authenticate w st0))
              ++ [ERROR ("Failed to initialize Google Drive service: " +:+ str w e)] /\
    calls st1 = [] /\
    forall (w' : World) (file_id : string),
      DriveService.list_files w' st1
      = match DriveService.authenticate w' st1 with
        | (Ok _, st2) => DriveService.list_files w' st2
        | (Raise e', st2) => (Raise e', st2)
        end /\
      DriveService.get_file_content w' file_id st1
      = match DriveService.authenticate w' st1 with
        | (Ok _, st2) => DriveService.get_file_content w' file_id st2
        | (Raise e', st2) => (Raise e', st2)
        end.
Proof.
  intros Hload Hfail.
  assert (Hst0 : service (drive_service st0) = None /\ calls st0 = []).
  { unfold load_module, DriveService.__init__ in Hload.
    destruct (negb (truthy (getenv w "GDRIVE_FOLDER_ID"))); [discriminate|].
    simpl in Hload. injection Hload as <-. split; reflexivity. }
  destruct Hst0 as [Hnone Hcalls].
  destruct (DriveService.authenticate w st0) as [r sta] eqn:Hauth.
  simpl in Hfail. subst r.
  destruct (authenticate_raise_session _ _ _ _ Hauth) as [Hsame _].
  pose proof (authenticate_calls w st0) as Hc. rewrite Hauth in Hc. simpl in Hc.
  set (st1 := with_log sta (ERROR ("Failed to initialize Google Drive service: " +:+ str w e))).
  assert (Hstart : startup_event w st0 = (Ok tt, st1)).
  { unfold startup_event, try_except. rewrite bind_run, Hauth. reflexivity. }
  assert (Hnone1 : service (drive_service st1) = None).
  { unfold st1. simpl. now rewrite Hsame. }
  exists st1. split; [exact Hstart|].
  split; [unfold start_service; rewrite Hload; simpl; now rewrite Hstart|].
  split; [exact Hnone1|]. split; [reflexivity|].
  split; [unfold st1; simpl; congruence|].
  intros w' file_id.
  unfold DriveService.list_files, DriveService.get_file_content.
  rewrite !bind_run, (ensure_authenticated_none _ _ Hnone1).
  destruct (DriveService.authenticate w' st1) as [[[]|e'] st2] eqn:Hre.
  - destruct (authenticate_ok_session _ _ _ Hre) as (svc & Hsvc).
    rewrite !bind_run, (ensure_authenticated_session _ _ _ Hsvc). split; reflexivity.
  - split; reflexivity.
Qed.

Lemma startup_failure_is_logged_and_retried_witness :
  exists st1,
    startup_event no_credentials_world fresh_state = (Ok tt, st1) /\
    start_service no_credentials_world = Ok st1 /\
    service (drive_service st1) = None /\
    log st1 = log (snd (DriveService.authenticate no_credentials_world fresh_state))
              ++ [ERROR ("Failed to initialize Google Drive service: "
                         +:+ str no_credentials_world
                               (HTTPException 500
                                  ("Authentication failed: " +:+ no_credentials_message)))] /\
    calls st1 = [] /\
    forall (w' : World) (file_id : string),
      DriveService.list_files w' st1
      = match DriveService.authenticate w' st1 with
        | (Ok _, st2) => DriveService.list_files w' st2
        | (Raise e', st2) => (Raise e', st2)
        end /\
      DriveService.get_file_content w' file_id st1
      = match DriveService.authenticate w' st1 with
        | (Ok _, st2) => DriveService.get_file_content w' file_id st2
        | (Raise e', st2) => (Raise e', st2)
        end.
Proof.
  apply (startup_failure_is_logged_and_retried no_credentials_world fresh_state);
    reflexivity.
Defined.

(** ** Further properties of the code *)

(** *** Helper lemmas *)

Lemma text_type_is_no_native_type (mime_type : string) :
  String.prefix "text/" mime_type = true ->
  String.eqb mime_type "application/vnd.google-apps.document" = false /\
  String.eqb mime_type "application/vnd.google-apps.spreadsheet" = false /\
  String.eqb mime_type "application/vnd.google-apps.presentation" = false /\
  String.eqb mime_type "application/pdf" = false.
Proof.
  intros H. repeat split; apply String.eqb_neq; intros ->; discriminate H.
Qed.

Lemma download_failed req e :
  download_error req = Some e -> download req = lift (Raise e).
Proof.
  intros H. unfold download. now rewrite (download_loop_error _ BytesIO_new _ H).
Qed.

Lemma export_as_failed w st api file_id mime_type e :
  service (drive_service st) = Some api ->
  download_error (files_export_media api file_id mime_type) = Some e ->
  DriveService.export_as w file_id mime_type st
  = (Raise e, with_call st (ExportRequest file_id mime_type)).
Proof.
  intros Hs He. unfold DriveService.export_as.
  rewrite bind_run, (self_service_files_run _ _ Hs).
  unfold bind, provider_request. now rewrite (download_failed _ _ He).
Qed.

Lemma media_failed w st api file_id e :
  service (drive_service st) = Some api ->
  download_error (files_get_media api file_id) = Some e ->
  DriveService._extract_pdf_text w file_id st
    = (Raise e, with_call st (MediaRequest file_id)) /\
  DriveService._download_text_file w file_id st
    = (Raise e, with_call st (MediaRequest file_id)).
Proof.
  intros Hs He.
  unfold DriveService._extract_pdf_text, DriveService._download_text_file.
  rewrite !bind_run, (self_service_files_run _ _ Hs).
  unfold bind, provider_request. now rewrite (download_failed _ _ He).
Qed.

(** Every branch of the dispatch on a supported type ends in the error of
    the download it starts, when all downloads of the file fail with it. *)
Lemma extract_by_type_failed w st api file_id mime_type e :
  service (drive_service st) = Some api ->
  supported_type mime_type = true ->
  (forall m, download_error (files_export_media api file_id m) = Some e) ->
  download_error (files_get_media api file_id) = Some e ->
  fst (DriveService.extract_by_type w file_id mime_type st) = Raise e.
Proof.
  intros Hs Hsup Hexp Hmed.
  unfold supported_type in Hsup. unfold DriveService.extract_by_type.
  destruct (String.eqb mime_type "application/vnd.google-apps.document").
  { unfold DriveService._export_google_doc.
    now rewrite (export_as_failed _ _ _ _ _ _ Hs (Hexp _)). }
  destruct (String.eqb mime_type "application/vnd.google-apps.spreadsheet").
  { unfold DriveService._export_google_sheet.
    now rewrite (export_as_failed _ _ _ _ _ _ Hs (Hexp _)). }
  destruct (String.eqb mime_type "application/vnd.google-apps.presentation").
  { unfold DriveService._export_google_slides.
    now rewrite (export_as_failed _ _ _ _ _ _ Hs (Hexp _)). }
  destruct (media_failed w _ _ _ _ Hs Hmed) as [Hpdf Htxt].
  destruct (String.eqb mime_type "application/pdf"); [now rewrite Hpdf|].
  destruct (String.prefix "text/" mime_type); [now rewrite Htxt|].
  discriminate Hsup.
Qed.

Lemma to_file_infos_app good rest infos :
  DriveService.to_file_infos good = Ok infos ->
  DriveService.to_file_infos (good ++ rest)
  = result_bind (DriveService.to_file_infos rest) (fun more => Ok (infos ++ more)).
Proof.
  revert infos. induction good as [|file good IH]; intros infos H; simpl in *.
  - injection H as <-. now destruct (DriveService.to_file_infos rest).
  - destruct (getitem file "id") as [id|e]; simpl in *; [|discriminate].
    destruct (getitem file "name") as [name|e]; simpl in *; [|discriminate].
    destruct (DriveService.to_file_infos good) as [infos0|e] eqn:E; simpl in *;
      [|discriminate].
    injection H as <-. rewrite (IH infos0 eq_refl).
    now destruct (DriveService.to_file_infos rest).
Qed.

(** The run of [list_files_try] up to the provider's answer. *)
Lemma list_files_try_answered w st api results :
  service (drive_service st) = Some api ->
  files_list api (folder_query (folder_id (drive_service st)))
             "files(id, name, mimeType)" = Ok results ->
  fst (DriveService.list_files_try w st)
  = DriveService.to_file_infos (default [] results).
Proof.
  intros Hs Hl. unfold DriveService.list_files_try.
  rewrite bind_run. unfold self_folder_id.
  rewrite bind_run. unfold logger_info at 1.
  rewrite bind_run, (self_service_files_run _ api) by exact Hs.
  rewrite bind_run. unfold provider_request.
  rewrite bind_run. unfold lift at 1. unfold folder_query in Hl.
  cbn [with_call with_log drive_service]. rewrite Hl.
  rewrite bind_run. unfold logger_info, lift.
  now destruct (DriveService.to_file_infos (default [] results)).
Qed.

Lemma list_files_try_rejected w st api e :
  service (drive_service st) = Some api ->
  files_list api (folder_query (folder_id (drive_service st)))
             "files(id, name, mimeType)" = Raise e ->
  fst (DriveService.list_files_try w st) = Raise e.
Proof.
  intros Hs Hl. unfold DriveService.list_files_try.
  rewrite bind_run. unfold self_folder_id.
  rewrite bind_run. unfold logger_info at 1.
  rewrite bind_run, (self_service_files_run _ api) by exact Hs.
  rewrite bind_run. unfold provider_request.
  rewrite bind_run. unfold lift at 1. unfold folder_query in Hl.
  cbn [with_call with_log drive_service]. now rewrite Hl.
Qed.

(** An exception the [except HttpError] clause does not match leaves the
    method as it is, and the endpoint answers 500 with its text. *)
Lemma uncaught_in_list_files w st st1 e :
  DriveService.ensure_authenticated w st = (Ok tt, st1) ->
  fst (DriveService.list_files_try w st1) = Raise e ->
  is_HttpError e = false ->
  fst (DriveService.list_files w st) = Raise e /\
  fst (list_files w st) = Raise (HTTPException 500 (str w e)).
Proof.
  intros Hauth Hbody Hne.
  destruct (DriveService.list_files_try w st1) as [r st2] eqn:Hrun.
  simpl in Hbody. subst r.
  assert (Hop : DriveService.list_files w st = (Raise e, st2)).
  { unfold DriveService.list_files. rewrite bind_run, Hauth.
    now apply try_except_passed. }
  split; [now rewrite Hop|].
  unfold list_files. now rewrite (try_except_caught _ _ _ _ _ _ Hop eq_refl).
Qed.

Lemma uncaught_in_get_file_content w st st1 file_id e :
  DriveService.ensure_authenticated w st = (Ok tt, st1) ->
  fst (DriveService.get_file_content_try w file_id st1) = Raise e ->
  is_HttpError e = false ->
  fst (DriveService.get_file_content w file_id st) = Raise e /\
  fst (get_file w file_id st) = Raise (HTTPException 500 (str w e)).
Proof.
  intros Hauth Hbody Hne.
  destruct (DriveService.get_file_content_try w file_id st1) as [r st2] eqn:Hrun.
  simpl in Hbody. subst r.
  assert (Hop : DriveService.get_file_content w file_id st = (Raise e, st2)).
  { rewrite (get_file_content_run _ _ _ _ Hauth). now apply try_except_passed. }
  split; [now rewrite Hop|].
  unfold get_file. now rewrite (try_except_caught _ _ _ _ _ _ Hop eq_refl).
Qed.

Lemma caught_in_get_file_content w st st1 file_id reason :
  DriveService.ensure_authenticated w st = (Ok tt, st1) ->
  fst (DriveService.get_file_content_try w file_id st1) = Raise (HttpError reason) ->
  fst (DriveService.get_file_content w file_id st)
  = Raise (HTTPException 400 ("Error getting file content: " +:+ reason)).
Proof.
  intros Hauth Hbody.
  destruct (DriveService.get_file_content_try w file_id st1) as [r st2] eqn:Hrun.
  simpl in Hbody. subst r.
  rewrite (get_file_content_run _ _ _ _ Hauth).
  now rewrite (try_except_caught _ _ _ _ _ _ Hrun eq_refl).
Qed.

(** *** The object fields across an operation *)

Lemma keeps_ret {A} (a : A) : keeps_object (ret a).
Proof. intros st. reflexivity. Qed.

Lemma keeps_raise {A} (e : exn) : keeps_object (@raise A e).
Proof. intros st. reflexivity. Qed.

Lemma keeps_lift {A} (r : result A) : keeps_object (lift r).
Proof. intros st. reflexivity. Qed.

Lemma keeps_logger_info msg : keeps_object (logger_info msg).
Proof. intros st. reflexivity. Qed.

Lemma keeps_logger_error msg : keeps_object (logger_error msg).
Proof. intros st. reflexivity. Qed.

Lemma keeps_provider_request c : keeps_object (provider_request c).
Proof. intros st. reflexivity. Qed.

Lemma keeps_self_folder_id : keeps_object self_folder_id.
Proof. intros st. reflexivity. Qed.

Lemma keeps_self_service_files : keeps_object self_service_files.
Proof. intros st. unfold self_service_files, bind, self_service. now destruct (service _). Qed.

Lemma keeps_download req : keeps_object (download req).
Proof. apply keeps_lift. Qed.

Lemma keeps_bind {A B} (m : M A) (k : A -> M B) :
  keeps_object m -> (forall a, keeps_object (k a)) -> keeps_object (bind m k).
Proof.
  intros Hm Hk st. rewrite bind_run. specialize (Hm st).
  destruct (m st) as [[a|e] st']; simpl in *; [|exact Hm].
  now rewrite Hk.
Qed.

Lemma keeps_try_except {A} (body : M A) catches handler :
  keeps_object body -> (forall e, keeps_object (handler e)) ->
  keeps_object (try_except body catches handler).
Proof.
  intros Hm Hh st. unfold try_except. specialize (Hm st).
  destruct (body st) as [[a|e] st']; simpl in *; [exact Hm|].
  destruct (catches e); [|exact Hm]. now rewrite Hh.
Qed.

Lemma try_except_object {A} (body : M A) catches handler st :
  (forall e, keeps_object (handler e)) ->
  drive_service (snd (try_except body catches handler st))
  = drive_service (snd (body st)).
Proof.
  intros Hh. unfold try_except.
  destruct (body st) as [[a|e] st']; simpl; [reflexivity|].
  destruct (catches e); [apply Hh | reflexivity].
Qed.

Create HintDb keeps.

#[local] Hint Resolve keeps_ret keeps_raise keeps_lift keeps_logger_info
  keeps_logger_error keeps_provider_request keeps_self_folder_id
  keeps_self_service_files keeps_download : keeps.

Ltac keeps_steps :=
  repeat (apply keeps_bind; [auto with keeps | intros ?]); auto with keeps.

Lemma keeps_list_files_try w : keeps_object (DriveService.list_files_try w).
Proof. unfold DriveService.list_files_try. keeps_steps. Qed.

Lemma keeps_extract_by_type w file_id mime_type :
  keeps_object (DriveService.extract_by_type w file_id mime_type).
Proof.
  unfold DriveService.extract_by_type, DriveService._export_google_doc,
    DriveService._export_google_sheet, DriveService._export_google_slides,
    DriveService.export_as, DriveService._extract_pdf_text,
    DriveService._download_text_file.
  repeat match goal with |- context [if ?b then _ else _] => destruct b end;
    keeps_steps.
Qed.

Lemma keeps_get_file_content_try w file_id :
  keeps_object (DriveService.get_file_content_try w file_id).
Proof.
  unfold DriveService.get_file_content_try.
  repeat (apply keeps_bind; [auto using keeps_extract_by_type with keeps | intros ?]).
  auto with keeps.
Qed.

(** After [ensure_authenticated], nothing in a request touches the object. *)
Lemma object_after_list_files w st :
  drive_service (snd (list_files w st))
  = drive_service (snd (DriveService.ensure_authenticated w st)) /\
  drive_service (snd (DriveService.list_files w st))
  = drive_service (snd (DriveService.ensure_authenticated w st)).
Proof.
  assert (Hop : drive_service (snd (DriveService.list_files w st))
                = drive_service (snd (DriveService.ensure_authenticated w st))).
  { unfold DriveService.list_files. rewrite bind_run.
    destruct (DriveService.ensure_authenticated w st) as [[[]|e] st1]; [|reflexivity].
    apply keeps_try_except; [apply keeps_list_files_try|].
    intros e. keeps_steps. }
  split; [|exact Hop]. rewrite <- Hop. unfold list_files.
  apply try_except_object. intros e. keeps_steps.
Qed.

Lemma object_after_get_file w file_id st :
  drive_service (snd (get_file w file_id st))
  = drive_service (snd (DriveService.ensure_authenticated w st)) /\
  drive_service (snd (DriveService.get_file_content w file_id st))
  = drive_service (snd (DriveService.ensure_authenticated w st)).
Proof.
  assert (Hop : drive_service (snd (DriveService.get_file_content w file_id st))
                = drive_service (snd (DriveService.ensure_authenticated w st))).
  { unfold DriveService.get_file_content. rewrite bind_run.
    destruct (DriveService.ensure_authenticated w st) as [[[]|e] st1]; [|reflexivity].
    apply keeps_try_except; [apply keeps_get_file_content_try|].
    intros e. keeps_steps. }
  split; [|exact Hop]. rewrite <- Hop. unfold get_file.
  apply try_except_object. intros e. keeps_steps.
Qed.

Lemma startup_event_run w st :
  startup_event w st =
  match session_from w (resolve_credentials w) with
  | Ok svc =>
      (Ok tt, with_log (authenticated_state (resolve_credentials w) svc st)
                       (INFO "Google Drive service initialized successfully"))
  | Raise e =>
      (Ok tt,
       with_log (rejected_state w e st)
         (ERROR ("Failed to initialize Google Drive service: "
                 +:+ str w (HTTPException 500 ("Authentication failed: " +:+ str w e)))))
  end.
Proof.
  unfold startup_event, try_except. rewrite bind_run, authenticate_run.
  destruct (session_from w (resolve_credentials w)); reflexivity.
Qed.

(** *** Module load and startup hook *)

(** X1. Loading the module, which constructs the service object, succeeds
    exactly when the folder identifier is set to a non-empty string, whatever
    the credentials are: the object then holds that identifier and no
    session, and nothing was logged or sent.  Otherwise, also for an
    identifier set to the empty string, it ends with the [ValueError] of
    [__init__]. *)
Theorem module_loads_iff_folder_configured (w : World) :
  is_Ok (load_module w) = truthy (getenv w "GDRIVE_FOLDER_ID") /\
  match load_module w with
  | Ok st =>
      getenv w "GDRIVE_FOLDER_ID" = Some (folder_id (drive_service st)) /\
      String.eqb (folder_id (drive_service st)) EmptyString = false /\
      service (drive_service st) = None /\
      log st = [] /\ calls st = []
  | Raise e => e = ValueError "GDRIVE_FOLDER_ID environment variable is required"
  end.
Proof.
  unfold load_module, DriveService.__init__.
  destruct (getenv w "GDRIVE_FOLDER_ID") as [folder|]; cbn [truthy];
    [|split; reflexivity].
  destruct (String.eqb folder EmptyString) eqn:E; cbn [negb result_bind];
    [split; reflexivity|].
  simpl. repeat split. exact E.
Qed.

(** X2. The startup hook never raises and sends nothing to the provider:
    it establishes the session the credentials give when they resolve, and
    leaves the object as it was when they do not. *)
Theorem startup_event_never_raises (w : World) (st : State) :
  fst (startup_event w st) = Ok tt /\
  calls (snd (startup_event w st)) = calls st /\
  folder_id (drive_service (snd (startup_event w st))) = folder_id (drive_service st) /\
  match session_from w (resolve_credentials w) with
  | Ok svc => service (drive_service (snd (startup_event w st))) = Some svc
  | Raise _ => drive_service (snd (startup_event w st)) = drive_service st
  end.
Proof.
  rewrite startup_event_run.
  destruct (session_from w (resolve_credentials w)); repeat split.
Qed.

(** *** Authentication *)

(** X3. A credential file that exists but cannot be loaded makes
    authentication fail with the error of the file: the inline credentials
    are not tried, whatever they are, and the object is left untouched. *)
Theorem authenticate_does_not_fall_back (w : World) (st : State) (path : string) (e : exn) :
  getenv w "GOOGLE_APPLICATION_CREDENTIALS" = Some path ->
  String.eqb path EmptyString = false ->
  path_exists w path = true ->
  from_service_account_file w path scopes = Raise e ->
  fst (DriveService.authenticate w st)
    = Raise (HTTPException 500 ("Authentication failed: " +:+ str w e)) /\
  drive_service (snd (DriveService.authenticate w st)) = drive_service st /\
  calls (snd (DriveService.authenticate w st)) = calls st.
Proof.
  intros Henv Hne Hex Hload. rewrite authenticate_run.
  unfold resolve_credentials, configured. rewrite Henv, Hne, Hex.
  unfold session_from. rewrite Hload. repeat split.
Qed.

Lemma authenticate_does_not_fall_back_witness :
  getenv broken_file_world "GOOGLE_SERVICE_ACCOUNT_JSON" = Some "{}" /\
  fst (DriveService.authenticate broken_file_world fresh_state)
    = Raise (HTTPException 500 "Authentication failed: Invalid key file") /\
  drive_service (snd (DriveService.authenticate broken_file_world fresh_state))
    = drive_service fresh_state /\
  calls (snd (DriveService.authenticate broken_file_world fresh_state)) = [].
Proof.
  split; [reflexivity|].
  apply (authenticate_does_not_fall_back broken_file_world fresh_state
           "/secrets/key.json" (ValueError "Invalid key file"));
    reflexivity.
Defined.

(** X4. When authentication fails on a request that has no session, the
    list and the get-content operations raise the 500 error of
    [authenticate] themselves and send nothing to the provider: only the log
    changes. *)
Theorem failed_authentication_sends_nothing
    (w : World) (st : State) (file_id : string) (e : exn) :
  service (drive_service st) = None ->
  session_from w (resolve_credentials w) = Raise e ->
  DriveService.list_files w st
    = (Raise (HTTPException 500 ("Authentication failed: " +:+ str w e)),
       rejected_state w e st) /\
  DriveService.get_file_content w file_id st
    = (Raise (HTTPException 500 ("Authentication failed: " +:+ str w e)),
       rejected_state w e st).
Proof.
  intros Hnone Hfail.
  unfold DriveService.list_files, DriveService.get_file_content.
  rewrite !bind_run, (ensure_authenticated_none _ _ Hnone), authenticate_run, Hfail.
  split; reflexivity.
Qed.

Lemma failed_authentication_sends_nothing_witness :
  DriveService.list_files no_credentials_world fresh_state
    = (Raise (HTTPException 500 ("Authentication failed: " +:+ no_credentials_message)),
       rejected_state no_credentials_world (ValueError no_credentials_message) fresh_state) /\
  DriveService.get_file_content no_credentials_world "f1" fresh_state
    = (Raise (HTTPException 500 ("Authentication failed: " +:+ no_credentials_message)),
       rejected_state no_credentials_world (ValueError no_credentials_message) fresh_state).
Proof.
  apply (failed_authentication_sends_nothing no_credentials_world fresh_state "f1"
           (ValueError no_credentials_message));
    reflexivity.
Defined.

(** X5. A request run with a session leaves the service object as it is:
    the session handle and the folder identifier after [GET /files] and
    [GET /file/{file_id}] are those before, whatever the outcome. *)
Theorem requests_keep_session
    (w : World) (st : State) (api : Resource) (file_id : string) :
  service (drive_service st) = Some api ->
  drive_service (snd (list_files w st)) = drive_service st /\
  drive_service (snd (get_file w file_id st)) = drive_service st.
Proof.
  intros Hs.
  destruct (object_after_list_files w st) as [Hl _].
  destruct (object_after_get_file w file_id st) as [Hg _].
  rewrite Hl, Hg, (ensure_authenticated_session _ _ _ Hs). split; reflexivity.
Qed.

Lemma requests_keep_session_witness :
  drive_service (snd (list_files failing_world (session_state failing_resource)))
    = drive_service (session_state failing_resource) /\
  drive_service (snd (get_file failing_world "f1" (session_state failing_resource)))
    = drive_service (session_state failing_resource).
Proof.
  apply (requests_keep_session failing_world (session_state failing_resource)
           failing_resource "f1").
  reflexivity.
Defined.

(** X6. A request that arrives without a session and authenticates
    successfully leaves the new session in the object whatever happens to
    the request afterwards, so that later requests find it. *)
Theorem lazy_authentication_establishes_session
    (w : World) (st : State) (svc : Resource) (file_id : string) :
  service (drive_service st) = None ->
  session_from w (resolve_credentials w) = Ok svc ->
  service (drive_service (snd (list_files w st))) = Some svc /\
  service (drive_service (snd (get_file w file_id st))) = Some svc.
Proof.
  intros Hnone Hok.
  destruct (object_after_list_files w st) as [Hl _].
  destruct (object_after_get_file w file_id st) as [Hg _].
  rewrite Hl, Hg, (ensure_authenticated_none _ _ Hnone), authenticate_run, Hok.
  split; reflexivity.
Qed.

Lemma lazy_authentication_establishes_session_witness :
  fst (list_files failing_world fresh_state)
    = Raise (HTTPException 500
               "400: Error listing files: HttpError 403: rate limit exceeded") /\
  service (drive_service (snd (list_files failing_world fresh_state)))
    = Some failing_resource /\
  service (drive_service (snd (get_file failing_world "f1" fresh_state)))
    = Some failing_resource.
Proof.
  split; [reflexivity|].
  apply (lazy_authentication_establishes_session failing_world fresh_state
           failing_resource "f1");
    reflexivity.
Defined.

(** X7. The folder identifier read at construction is never changed: not
    by the startup hook, not by authentication, not by a request. *)
Theorem folder_id_never_changes (w : World) (st : State) (file_id : string) :
  folder_id (drive_service (snd (startup_event w st))) = folder_id (drive_service st) /\
  folder_id (drive_service (snd (DriveService.authenticate w st)))
    = folder_id (drive_service st) /\
  folder_id (drive_service (snd (list_files w st))) = folder_id (drive_service st) /\
  folder_id (drive_service (snd (get_file w file_id st))) = folder_id (drive_service st).
Proof.
  destruct (object_after_list_files w st) as [Hl _].
  destruct (object_after_get_file w file_id st) as [Hg _].
  rewrite Hl, Hg, ensure_authenticated_folder, authenticate_folder.
  rewrite startup_event_run.
  destruct (session_from w (resolve_credentials w)); repeat split.
Qed.

(** *** The list operation *)

(** X8. An entry of the provider's answer that lacks the identifier, or has
    it and lacks the name, makes the whole listing fail with a [KeyError] for
    that key, even when entries before it are complete: the method lets the
    error through unchanged and the endpoint answers 500 with the quoted
    key. *)
Theorem list_files_entry_without_key
    (w : World) (st st1 : State) (api : Resource)
    (results : option (list (gmap string string)))
    (good rest : list (gmap string string)) (bad : gmap string string)
    (key : string) :
  DriveService.ensure_authenticated w st = (Ok tt, st1) ->
  service (drive_service st1) = Some api ->
  files_list api (folder_query (folder_id (drive_service st)))
             "files(id, name, mimeType)" = Ok results ->
  default [] results = good ++ bad :: rest ->
  Forall has_id_and_name good ->
  (key = "id" /\ bad !! "id" = None) \/
  (key = "name" /\ is_Some (bad !! "id") /\ bad !! "name" = None) ->
  fst (DriveService.list_files w st) = Raise (KeyError key) /\
  fst (list_files w st) = Raise (HTTPException 500 ("'" +:+ key +:+ "'")).
Proof.
  intros Hauth Hs Hl Hsplit Hgood Hbad.
  pose proof (ensure_authenticated_folder w st) as Hfolder.
  rewrite Hauth in Hfolder. simpl in Hfolder. rewrite <- Hfolder in Hl.
  apply (uncaught_in_list_files w st st1 (KeyError key) Hauth); [|reflexivity].
  rewrite (list_files_try_answered _ _ _ _ Hs Hl), Hsplit.
  destruct (to_file_infos_verbatim good Hgood) as (infos & Hinfos & _).
  rewrite (to_file_infos_app _ _ _ Hinfos). simpl. unfold getitem.
  destruct Hbad as [[-> Hid] | (-> & [id Hid] & Hname)].
  - now rewrite Hid.
  - now rewrite Hid, Hname.
Qed.

Lemma list_files_entry_without_key_witness :
  fst (DriveService.list_files extra_world fresh_state) = Raise (KeyError "id") /\
  fst (list_files extra_world fresh_state) = Raise (HTTPException 500 "'id'").
Proof.
  apply (list_files_entry_without_key extra_world fresh_state
           (snd (DriveService.ensure_authenticated extra_world fresh_state))
           extra_resource
           (Some [ {[ "id" := "s1"; "name" := "budget" ]};
                   {[ "name" := "nameless entry" ]};
                   {[ "id" := "p1"; "name" := "slides" ]} ])
           [ {[ "id" := "s1"; "name" := "budget" ]} ]
           [ {[ "id" := "p1"; "name" := "slides" ]} ]
           {[ "name" := "nameless entry" ]} "id");
    try reflexivity.
  - repeat constructor; eexists; reflexivity.
  - left. split; reflexivity.
Defined.

(** X9. An error of the folder query that is not an [HttpError] is not
    turned into a 400 error: it leaves the method unchanged, and the
    endpoint answers 500 with its text. *)
Theorem list_files_other_errors_propagate
    (w : World) (st st1 : State) (api : Resource) (e : exn) :
  DriveService.ensure_authenticated w st = (Ok tt, st1) ->
  service (drive_service st1) = Some api ->
  files_list api (folder_query (folder_id (drive_service st)))
             "files(id, name, mimeType)" = Raise e ->
  is_HttpError e = false ->
  fst (DriveService.list_files w st) = Raise e /\
  fst (list_files w st) = Raise (HTTPException 500 (str w e)).
Proof.
  intros Hauth Hs Hl Hne.
  pose proof (ensure_authenticated_folder w st) as Hfolder.
  rewrite Hauth in Hfolder. simpl in Hfolder. rewrite <- Hfolder in Hl.
  apply (uncaught_in_list_files w st st1 e Hauth); [|exact Hne].
  exact (list_files_try_rejected _ _ _ _ Hs Hl).
Qed.

Lemma list_files_other_errors_propagate_witness :
  fst (DriveService.list_files unreachable_world fresh_state)
    = Raise (OtherException "TransportError: connection reset") /\
  fst (list_files unreachable_world fresh_state)
    = Raise (HTTPException 500 "TransportError: connection reset").
Proof.
  apply (list_files_other_errors_propagate unreachable_world fresh_state
           (snd (DriveService.ensure_authenticated unreachable_world fresh_state))
           unreachable_resource (OtherException "TransportError: connection reset"));
    reflexivity.
Defined.

(** X10. The records of a listing depend on the identifier and the name of
    the entries only: two answers whose entries agree on these two keys give
    the same outcome, whatever their types or other keys are. *)
Theorem to_file_infos_reads_id_and_name_only (files files' : list (gmap string string)) :
  Forall2 same_id_and_name files files' ->
  DriveService.to_file_infos files = DriveService.to_file_infos files'.
Proof.
  induction 1 as [|file file' files files' [Hid Hname] _ IH]; [reflexivity|].
  simpl. unfold getitem. now rewrite Hid, Hname, IH.
Qed.

Lemma to_file_infos_reads_id_and_name_only_witness :
  DriveService.to_file_infos
    [ {[ "id" := "f1"; "name" := "notes.txt"; "mimeType" := "text/plain" ]} ]
  = DriveService.to_file_infos
      [ {[ "id" := "f1"; "name" := "notes.txt"; "mimeType" := "application/zip";
           "size" := "12" ]} ].
Proof.
  apply to_file_infos_reads_id_and_name_only.
  repeat constructor.
Defined.

(** *** The get-content operation *)

Lemma get_file_content_try_rejected w st api file_id e :
  service (drive_service st) = Some api ->
  files_get api file_id = Raise e ->
  DriveService.get_file_content_try w file_id st
  = (Raise e, with_call st (GetRequest file_id)).
Proof.
  intros Hs Hg. unfold DriveService.get_file_content_try.
  rewrite bind_run, (self_service_files_run _ _ Hs).
  unfold provider_request, lift. rewrite bind_run. now rewrite bind_run, Hg.
Qed.

Lemma endpoint_calls w file_id st :
  calls (snd (get_file w file_id st))
  = calls (snd (DriveService.get_file_content w file_id st)).
Proof.
  unfold get_file, try_except.
  destruct (DriveService.get_file_content w file_id st) as [[a|e] st']; reflexivity.
Qed.

(** X11. When the provider rejects the metadata request, the get-content
    operation raises a 400 error embedding the provider's message, and the
    metadata request is the only one sent: no download is attempted. *)
Theorem get_file_content_metadata_rejected
    (w : World) (st st1 : State) (api : Resource) (file_id reason : string) :
  DriveService.ensure_authenticated w st = (Ok tt, st1) ->
  service (drive_service st1) = Some api ->
  files_get api file_id = Raise (HttpError reason) ->
  fst (DriveService.get_file_content w file_id st)
    = Raise (HTTPException 400 ("Error getting file content: " +:+ reason)) /\
  calls (snd (get_file w file_id st)) = calls st ++ [GetRequest file_id].
Proof.
  intros Hauth Hs Hg.
  pose proof (ensure_authenticated_calls w st) as Hcalls.
  rewrite Hauth in Hcalls. simpl in Hcalls.
  pose proof (get_file_content_try_rejected w _ _ _ _ Hs Hg) as Hbody.
  assert (Hop : DriveService.get_file_content w file_id st
                = (Raise (HTTPException 400 ("Error getting file content: " +:+ reason)),
                   with_log (with_call st1 (GetRequest file_id))
                            (ERROR ("Error getting file content: " +:+ reason)))).
  { rewrite (get_file_content_run _ _ _ _ Hauth).
    now rewrite (try_except_caught _ _ _ _ _ _ Hbody eq_refl). }
  split; [now rewrite Hop|].
  rewrite endpoint_calls, Hop. simpl. now rewrite Hcalls.
Qed.

Lemma get_file_content_metadata_rejected_witness :
  fst (DriveService.get_file_content extra_world "nowhere" fresh_state)
    = Raise (HTTPException 400
               "Error getting file content: HttpError 404: File not found") /\
  calls (snd (get_file extra_world "nowhere" fresh_state)) = [GetRequest "nowhere"].
Proof.
  apply (get_file_content_metadata_rejected extra_world fresh_state
           (snd (DriveService.ensure_authenticated extra_world fresh_state))
           extra_resource "nowhere" "HttpError 404: File not found");
    reflexivity.
Defined.

(** X12. For a file of any supported type whose downloads the provider
    rejects, at the first chunk or after some chunks, the get-content
    operation raises a 400 error embedding the provider's message: what was
    received before the error is not returned. *)
Theorem get_file_content_download_rejected
    (w : World) (st st1 : State) (api : Resource)
    (file_id : string) (meta : gmap string string) (name mime_type reason : string) :
  DriveService.ensure_authenticated w st = (Ok tt, st1) ->
  service (drive_service st1) = Some api ->
  files_get api file_id = Ok meta ->
  meta !! "name" = Some name ->
  meta !! "mimeType" = Some mime_type ->
  supported_type mime_type = true ->
  (forall m, download_error (files_export_media api file_id m) = Some (HttpError reason)) ->
  download_error (files_get_media api file_id) = Some (HttpError reason) ->
  fst (DriveService.get_file_content w file_id st)
    = Raise (HTTPException 400 ("Error getting file content: " +:+ reason)).
Proof.
  intros Hauth Hs Hg Hn Hm Hsup Hexp Hmed.
  apply (caught_in_get_file_content w st st1 file_id reason Hauth).
  rewrite (get_file_content_try_run _ _ _ _ _ _ _ Hs Hg Hn Hm), bind_run.
  pose proof (extract_by_type_failed w (with_call st1 (GetRequest file_id)) api
                file_id mime_type (HttpError reason) Hs Hsup Hexp Hmed) as Hfail.
  destruct (DriveService.extract_by_type w file_id mime_type
              (with_call st1 (GetRequest file_id))) as [r st2].
  simpl in Hfail. now subst r.
Qed.

Lemma get_file_content_download_rejected_witness :
  delivered (files_export_media extra_resource "d1" "text/plain") = None /\
  fst (DriveService.get_file_content extra_world "d1" fresh_state)
    = Raise (HTTPException 400
               "Error getting file content: HttpError 500: backend error").
Proof.
  split; [reflexivity|].
  apply (get_file_content_download_rejected extra_world fresh_state
           (snd (DriveService.ensure_authenticated extra_world fresh_state))
           extra_resource "d1"
           {[ "name" := "draft"; "mimeType" := "application/vnd.google-apps.document" ]}
           "draft" "application/vnd.google-apps.document"
           "HttpError 500: backend error");
    reflexivity.
Defined.

(** The common run of the types whose content is a decoded download. *)
Lemma get_file_content_decoded
    (w : World) (st st1 : State) (api : Resource)
    (file_id : string) (meta : gmap string string) (name mime_type : string)
    (call : api_call) (decoded : result Text) :
  DriveService.ensure_authenticated w st = (Ok tt, st1) ->
  service (drive_service st1) = Some api ->
  files_get api file_id = Ok meta ->
  meta !! "name" = Some name ->
  meta !! "mimeType" = Some mime_type ->
  DriveService.extract_by_type w file_id mime_type (with_call st1 (GetRequest file_id))
    = (decoded, with_call (with_call st1 (GetRequest file_id)) call) ->
  fst (DriveService.get_file_content_try w file_id st1)
    = result_bind decoded (fun text => Ok (mkFileContent file_id name text)) /\
  forall text, decoded = Ok text ->
    fst (DriveService.get_file_content w file_id st) = Ok (mkFileContent file_id name text) /\
    fst (get_file w file_id st) = Ok (mkFileContent file_id name text) /\
    calls (snd (get_file w file_id st)) = calls st ++ [GetRequest file_id; call].
Proof.
  intros Hauth Hs Hg Hn Hm Hrun.
  pose proof (ensure_authenticated_calls w st) as Hcalls.
  rewrite Hauth in Hcalls. simpl in Hcalls.
  assert (Hbody : DriveService.get_file_content_try w file_id st1
                  = (result_bind decoded (fun text => Ok (mkFileContent file_id name text)),
                     with_call (with_call st1 (GetRequest file_id)) call)).
  { rewrite (get_file_content_try_run _ _ _ _ _ _ _ Hs Hg Hn Hm), bind_run, Hrun.
    now destruct decoded. }
  split; [now rewrite Hbody|].
  intros text ->. simpl in Hbody.
  assert (Hop : DriveService.get_file_content w file_id st
                = (Ok (mkFileContent file_id name text),
                   with_call (with_call st1 (GetRequest file_id)) call)).
  { rewrite (get_file_content_run _ _ _ _ Hauth). now apply try_except_ok. }
  split; [now rewrite Hop|].
  split; [unfold get_file; now rewrite (try_except_ok _ _ _ _ _ _ Hop)|].
  rewrite endpoint_calls, Hop. simpl. rewrite Hcalls, <- app_assoc. reflexivity.
Qed.

(** X13. For a native spreadsheet the get-content operation asks the
    provider for an export to CSV and returns the delivered bytes decoded as
    UTF-8; it sends the metadata request and that export request, in this
    order, and nothing else. *)
Theorem get_file_content_spreadsheet
    (w : World) (st st1 : State) (api : Resource)
    (file_id : string) (meta : gmap string string) (name : string)
    (data : bytes) (text : Text) :
  DriveService.ensure_authenticated w st = (Ok tt, st1) ->
  service (drive_service st1) = Some api ->
  files_get api file_id = Ok meta ->
  meta !! "name" = Some name ->
  meta !! "mimeType" = Some "application/vnd.google-apps.spreadsheet" ->
  delivered (files_export_media api file_id "text/csv") = Some data ->
  decode_utf8 w data = Ok text ->
  fst (DriveService.get_file_content w file_id st) = Ok (mkFileContent file_id name text) /\
  fst (get_file w file_id st) = Ok (mkFileContent file_id name text) /\
  calls (snd (get_file w file_id st))
    = calls st ++ [GetRequest file_id; ExportRequest file_id "text/csv"].
Proof.
  intros Hauth Hs Hg Hn Hm Hd Hdec.
  refine (proj2 (get_file_content_decoded w st st1 api file_id meta name _ _ _
                   Hauth Hs Hg Hn Hm _) text Hdec).
  change (DriveService.extract_by_type w file_id "application/vnd.google-apps.spreadsheet")
    with (DriveService.export_as w file_id "text/csv").
  exact (export_as_run w (with_call st1 (GetRequest file_id)) api file_id
           "text/csv" data Hs Hd).
Qed.

Lemma get_file_content_spreadsheet_witness :
  fst (DriveService.get_file_content extra_world "s1" fresh_state)
    = Ok (mkFileContent "s1" "budget" (text_of_string "a,b;1,2")) /\
  fst (get_file extra_world "s1" fresh_state)
    = Ok (mkFileContent "s1" "budget" (text_of_string "a,b;1,2")) /\
  calls (snd (get_file extra_world "s1" fresh_state))
    = [GetRequest "s1"; ExportRequest "s1" "text/csv"].
Proof.
  apply (get_file_content_spreadsheet extra_world fresh_state
           (snd (DriveService.ensure_authenticated extra_world fresh_state))
           extra_resource "s1"
           {[ "name" := "budget"; "mimeType" := "application/vnd.google-apps.spreadsheet" ]}
           "budget" (text_bytes "a,b;1,2"));
    reflexivity.
Defined.

(** X14. For a native slide deck the get-content operation asks the
    provider for an export to plain text and returns the delivered bytes
    decoded as UTF-8; it sends the metadata request and that export request,
    in this order, and nothing else. *)
Theorem get_file_content_slides
    (w : World) (st st1 : State) (api : Resource)
    (file_id : string) (meta : gmap string string) (name : string)
    (data : bytes) (text : Text) :
  DriveService.ensure_authenticated w st = (Ok tt, st1) ->
  service (drive_service st1) = Some api ->
  files_get api file_id = Ok meta ->
  meta !! "name" = Some name ->
  meta !! "mimeType" = Some "application/vnd.google-apps.presentation" ->
  delivered (files_export_media api file_id "text/plain") = Some data ->
  decode_utf8 w data = Ok text ->
  fst (DriveService.get_file_content w file_id st) = Ok (mkFileContent file_id name text) /\
  fst (get_file w file_id st) = Ok (mkFileContent file_id name text) /\
  calls (snd (get_file w file_id st))
    = calls st ++ [GetRequest file_id; ExportRequest file_id "text/plain"].
Proof.
  intros Hauth Hs Hg Hn Hm Hd Hdec.
  refine (proj2 (get_file_content_decoded w st st1 api file_id meta name _ _ _
                   Hauth Hs Hg Hn Hm _) text Hdec).
  change (DriveService.extract_by_type w file_id "application/vnd.google-apps.presentation")
    with (DriveService.export_as w file_id "text/plain").
  exact (export_as_run w (with_call st1 (GetRequest file_id)) api file_id
           "text/plain" data Hs Hd).
Qed.

Lemma get_file_content_slides_witness :
  fst (DriveService.get_file_content extra_world "p1" fresh_state)
    = Ok (mkFileContent "p1" "slides" (text_of_string "slide one")) /\
  fst (get_file extra_world "p1" fresh_state)
    = Ok (mkFileContent "p1" "slides" (text_of_string "slide one")) /\
  calls (snd (get_file extra_world "p1" fresh_state))
    = [GetRequest "p1"; ExportRequest "p1" "text/plain"].
Proof.
  apply (get_file_content_slides extra_world fresh_state
           (snd (DriveService.ensure_authenticated extra_world fresh_state))
           extra_resource "p1"
           {[ "name" := "slides"; "mimeType" := "application/vnd.google-apps.presentation" ]}
           "slides" (text_bytes "slide one"));
    reflexivity.
Defined.

Lemma extract_by_type_text w file_id mime_type :
  String.prefix "text/" mime_type = true ->
  DriveService.extract_by_type w file_id mime_type
  = DriveService._download_text_file w file_id.
Proof.
  intros H. unfold DriveService.extract_by_type.
  destruct (text_type_is_no_native_type _ H) as (-> & -> & -> & ->).
  now rewrite H.
Qed.

(** X15. For every type that begins with text/, whatever follows the
    prefix, the get-content operation downloads the stored bytes, with no
    export, and returns them decoded as UTF-8 without trimming; it sends the
    metadata request and the media request, in this order, and nothing
    else. *)
Theorem get_file_content_text
    (w : World) (st st1 : State) (api : Resource)
    (file_id : string) (meta : gmap string string) (name mime_type : string)
    (data : bytes) (text : Text) :
  DriveService.ensure_authenticated w st = (Ok tt, st1) ->
  service (drive_service st1) = Some api ->
  files_get api file_id = Ok meta ->
  meta !! "name" = Some name ->
  meta !! "mimeType" = Some mime_type ->
  String.prefix "text/" mime_type = true ->
  delivered (files_get_media api file_id) = Some data ->
  decode_utf8 w data = Ok text ->
  fst (DriveService.get_file_content w file_id st) = Ok (mkFileContent file_id name text) /\
  fst (get_file w file_id st) = Ok (mkFileContent file_id name text) /\
  calls (snd (get_file w file_id st))
    = calls st ++ [GetRequest file_id; MediaRequest file_id].
Proof.
  intros Hauth Hs Hg Hn Hm Hpre Hd Hdec.
  refine (proj2 (get_file_content_decoded w st st1 api file_id meta name _ _ _
                   Hauth Hs Hg Hn Hm _) text Hdec).
  rewrite (extract_by_type_text _ _ _ Hpre).
  exact (download_text_file_run w (with_call st1 (GetRequest file_id)) api file_id
           data Hs Hd).
Qed.

Lemma get_file_content_text_witness :
  fst (DriveService.get_file_content extra_world "t1" fresh_state)
    = Ok (mkFileContent "t1" "table.csv" (text_of_string " x,y ")) /\
  fst (get_file extra_world "t1" fresh_state)
    = Ok (mkFileContent "t1" "table.csv" (text_of_string " x,y ")) /\
  calls (snd (get_file extra_world "t1" fresh_state))
    = [GetRequest "t1"; MediaRequest "t1"].
Proof.
  apply (get_file_content_text extra_world fresh_state
           (snd (DriveService.ensure_authenticated extra_world fresh_state))
           extra_resource "t1"
           {[ "name" := "table.csv"; "mimeType" := "text/csv" ]}
           "table.csv" "text/csv" (text_bytes " x,y "));
    reflexivity.
Defined.

(** X16. When the bytes of a text file do not decode, the error of the
    decoding is not turned into a 400 error: it leaves the method unchanged,
    and the endpoint answers 500 with its text. *)
Theorem get_file_content_decode_error
    (w : World) (st st1 : State) (api : Resource)
    (file_id : string) (meta : gmap string string) (name mime_type : string)
    (data : bytes) (e : exn) :
  DriveService.ensure_authenticated w st = (Ok tt, st1) ->
  service (drive_service st1) = Some api ->
  files_get api file_id = Ok meta ->
  meta !! "name" = Some name ->
  meta !! "mimeType" = Some mime_type ->
  String.prefix "text/" mime_type = true ->
  delivered (files_get_media api file_id) = Some data ->
  decode_utf8 w data = Raise e ->
  is_HttpError e = false ->
  fst (DriveService.get_file_content w file_id st) = Raise e /\
  fst (get_file w file_id st) = Raise (HTTPException 500 (str w e)).
Proof.
  intros Hauth Hs Hg Hn Hm Hpre Hd Hdec Hne.
  apply (uncaught_in_get_file_content w st st1 file_id e Hauth); [|exact Hne].
  assert (Hrun : DriveService.extract_by_type w file_id mime_type
                   (with_call st1 (GetRequest file_id))
                 = (decode_utf8 w data,
                    with_call (with_call st1 (GetRequest file_id)) (MediaRequest file_id))).
  { rewrite (extract_by_type_text _ _ _ Hpre).
    exact (download_text_file_run w (with_call st1 (GetRequest file_id)) api file_id
             data Hs Hd). }
  rewrite (proj1 (get_file_content_decoded w st st1 api file_id meta name _ _ _
                    Hauth Hs Hg Hn Hm Hrun)).
  now rewrite Hdec.
Qed.

Lemma get_file_content_decode_error_witness :
  fst (DriveService.get_file_content extra_world "b1" fresh_state)
    = Raise (UnicodeDecodeError "'utf-8' codec can't decode byte") /\
  fst (get_file extra_world "b1" fresh_state)
    = Raise (HTTPException 500 "'utf-8' codec can't decode byte").
Proof.
  apply (get_file_content_decode_error extra_world fresh_state
           (snd (DriveService.ensure_authenticated extra_world fresh_state))
           extra_resource "b1"
           {[ "name" := "binary.txt"; "mimeType" := "text/plain" ]}
           "binary.txt" "text/plain" [Byte.xff; Byte.xfe]
           (UnicodeDecodeError "'utf-8' codec can't decode byte"));
    reflexivity.
Defined.

(** X17. Whatever text the PDF routine returns has no whitespace left to
    trim: stripping it again changes nothing, and it does not begin with a
    whitespace character. *)
Theorem extract_pdf_text_is_trimmed (w : World) (file_id : string) (st : State) (text : Text) :
  fst (DriveService._extract_pdf_text w file_id st) = Ok text ->
  strip text = text /\ starts_clean text.
Proof.
  unfold DriveService._extract_pdf_text. rewrite bind_run.
  destruct (self_service_files st) as [[api|e] s1]; [|discriminate].
  unfold bind, provider_request, download, lift, ret.
  destruct (download_loop (files_get_media api file_id) BytesIO_new) as [fh|e];
    [|discriminate].
  destruct (PdfReader_pages w _) as [pages|e]; [|discriminate].
  destruct (DriveService.extract_pages w pages []) as [raw|e];
    [|discriminate].
  simpl.
  intros [= <-]. split; [apply strip_idempotent|].
  apply rstrip_starts_clean, lstrip_starts_clean.
Qed.

Lemma extract_pdf_text_is_trimmed_witness :
  fst (DriveService._extract_pdf_text demo_world "f4" (session_state demo_resource))
    = Ok (text_of_string "first page" ++ newline ++ text_of_string "second page") /\
  strip (text_of_string "first page" ++ newline ++ text_of_string "second page")
    = text_of_string "first page" ++ newline ++ text_of_string "second page" /\
  starts_clean (text_of_string "first page" ++ newline ++ text_of_string "second page").
Proof.
  split; [reflexivity|].
  apply (extract_pdf_text_is_trimmed demo_world "f4" (session_state demo_resource)).
  reflexivity.
Defined.

Lemma extract_pages_failed w good texts bad rest e : forall text,
  Forall2 (fun page t => extract_text w page = Ok t) good texts ->
  extract_text w bad = Raise e ->
  DriveService.extract_pages w (good ++ bad :: rest) text = Raise e.
Proof.
  intros text H. revert text.
  induction H as [|page t good texts Hp _ IH]; intros text Hbad; simpl.
  - now rewrite Hbad.
  - rewrite Hp. simpl. now apply IH.
Qed.

(** X18. When the text of one page of a PDF cannot be extracted, the PDF
    routine raises the error of that page: the text of the pages before it
    is not returned, and the pages after it are not looked at. *)
Theorem pdf_page_failure_aborts
    (w : World) (st : State) (api : Resource) (file_id : string) (data : bytes)
    (good rest : list (Page w)) (bad : Page w) (texts : list Text) (e : exn) :
  service (drive_service st) = Some api ->
  delivered (files_get_media api file_id) = Some data ->
  PdfReader_pages w data = Ok (good ++ bad :: rest) ->
  Forall2 (fun page t => extract_text w page = Ok t) good texts ->
  extract_text w bad = Raise e ->
  fst (DriveService._extract_pdf_text w file_id st) = Raise e.
Proof.
  intros Hs Hd Hp Hgood Hbad.
  destruct (download_delivered _ _ Hd) as (fh & Hrun & _ & Hread).
  unfold DriveService._extract_pdf_text.
  rewrite bind_run, (self_service_files_run _ _ Hs).
  unfold bind, provider_request, download, lift, ret.
  rewrite Hrun, Hread, Hp.
  now rewrite (extract_pages_failed w good texts bad rest e [] Hgood Hbad).
Qed.

Lemma pdf_page_failure_aborts_witness :
  fst (DriveService._extract_pdf_text extra_world "q1" (session_state extra_resource))
  = Raise (OtherException "cannot extract text").
Proof.
  apply (pdf_page_failure_aborts extra_world (session_state extra_resource)
           extra_resource "q1" (text_bytes "%PDF")
           ["cover"] ["index"] "scanned" [text_of_string "cover"]
           (OtherException "cannot extract text"));
    try reflexivity.
  repeat constructor.
Defined.

(** X19. For a file of unsupported type the metadata request is the only
    request sent to the provider: no export and no download is started
    before the type is refused. *)
Theorem unsupported_type_sends_metadata_request_only
    (w : World) (st st1 : State) (api : Resource)
    (file_id : string) (meta : gmap string string) (name mime_type : string) :
  DriveService.ensure_authenticated w st = (Ok tt, st1) ->
  service (drive_service st1) = Some api ->
  files_get api file_id = Ok meta ->
  meta !! "name" = Some name ->
  meta !! "mimeType" = Some mime_type ->
  supported_type mime_type = false ->
  calls (snd (DriveService.get_file_content w file_id st))
    = calls st ++ [GetRequest file_id] /\
  calls (snd (get_file w file_id st)) = calls st ++ [GetRequest file_id].
Proof.
  intros Hauth Hs Hg Hn Hm Hu.
  pose proof (ensure_authenticated_calls w st) as Hcalls.
  rewrite Hauth in Hcalls. simpl in Hcalls.
  assert (Hop : DriveService.get_file_content w file_id st
                = (Raise (HTTPException 400 ("Unsupported file type: " +:+ mime_type)),
                   with_call st1 (GetRequest file_id))).
  { rewrite (get_file_content_run _ _ _ _ Hauth).
    apply try_except_passed; [|reflexivity].
    rewrite (get_file_content_try_run _ _ _ _ _ _ _ Hs Hg Hn Hm).
    rewrite bind_run. now rewrite extract_by_type_unsupported. }
  rewrite endpoint_calls, Hop. simpl. rewrite Hcalls. split; reflexivity.
Qed.

Lemma unsupported_type_sends_metadata_request_only_witness :
  calls (snd (DriveService.get_file_content extra_world "z1" fresh_state))
    = [GetRequest "z1"] /\
  calls (snd (get_file extra_world "z1" fresh_state)) = [GetRequest "z1"].
Proof.
  apply (unsupported_type_sends_metadata_request_only extra_world fresh_state
           (snd (DriveService.ensure_authenticated extra_world fresh_state))
           extra_resource "z1"
           {[ "name" := "archive.zip"; "mimeType" := "application/zip" ]}
           "archive.zip" "application/zip");
    reflexivity.
Defined.

(** X20. Metadata without a name, or with a name and without a type, makes
    the get-content operation fail with a [KeyError] for that key, which the
    method lets through unchanged; the endpoint answers 500 with the quoted
    key, and no download is started. *)
Theorem get_file_content_metadata_without_key
    (w : World) (st st1 : State) (api : Resource)
    (file_id : string) (meta : gmap string string) (key : string) :
  DriveService.ensure_authenticated w st = (Ok tt, st1) ->
  service (drive_service st1) = Some api ->
  files_get api file_id = Ok meta ->
  (key = "name" /\ meta !! "name" = None) \/
  (key = "mimeType" /\ is_Some (meta !! "name") /\ meta !! "mimeType" = None) ->
  fst (DriveService.get_file_content w file_id st) = Raise (KeyError key) /\
  fst (get_file w file_id st) = Raise (HTTPException 500 ("'" +:+ key +:+ "'")) /\
  calls (snd (get_file w file_id st)) = calls st ++ [GetRequest file_id].
Proof.
  intros Hauth Hs Hg Hkey.
  pose proof (ensure_authenticated_calls w st) as Hcalls.
  rewrite Hauth in Hcalls. simpl in Hcalls.
  assert (Hbody : DriveService.get_file_content_try w file_id st1
                  = (Raise (KeyError key), with_call st1 (GetRequest file_id))).
  { unfold DriveService.get_file_content_try.
    rewrite bind_run, (self_service_files_run _ _ Hs).
    unfold provider_request, lift, getitem.
    rewrite bind_run. rewrite bind_run, Hg. rewrite bind_run.
    destruct Hkey as [[-> Hname] | (-> & [name Hname] & Htype)].
    - now rewrite Hname.
    - rewrite Hname. rewrite bind_run. now rewrite Htype. }
  assert (Hop : DriveService.get_file_content w file_id st
                = (Raise (KeyError key), with_call st1 (GetRequest file_id))).
  { rewrite (get_file_content_run _ _ _ _ Hauth).
    now apply try_except_passed. }
  split; [now rewrite Hop|].
  split; [unfold get_file; now rewrite (try_except_caught _ _ _ _ _ _ Hop eq_refl)|].
  rewrite endpoint_calls, Hop. simpl. now rewrite Hcalls.
Qed.

Lemma get_file_content_metadata_without_key_witness :
  fst (DriveService.get_file_content extra_world "m1" fresh_state)
    = Raise (KeyError "mimeType") /\
  fst (get_file extra_world "m1" fresh_state) = Raise (HTTPException 500 "'mimeType'") /\
  calls (snd (get_file extra_world "m1" fresh_state)) = [GetRequest "m1"].
Proof.
  apply (get_file_content_metadata_without_key extra_world fresh_state
           (snd (DriveService.ensure_authenticated extra_world fresh_state))
           extra_resource "m1" {[ "name" := "untyped" ]} "mimeType");
    try reflexivity.
  right. repeat split. eexists; reflexivity.
Defined.

Lemma blank_pages_text (texts : list Text) :
  Forall blank texts ->
  lstrip (fold_right (fun t acc => t ++ newline ++ acc) [] texts) = [].
Proof.
  induction 1 as [|t texts Ht _ IH]; [reflexivity|].
  simpl. rewrite lstrip_app. unfold blank in Ht. rewrite Ht.
  simpl. exact IH.
Qed.

(** X21. A PDF without pages, or whose pages all give blank text, yields the
    empty text and no error. *)
Theorem blank_pdf_gives_empty_text
    (w : World) (st : State) (api : Resource) (file_id : string) (data : bytes)
    (pages : list (Page w)) (texts : list Text) :
  service (drive_service st) = Some api ->
  delivered (files_get_media api file_id) = Some data ->
  PdfReader_pages w data = Ok pages ->
  Forall2 (fun page t => extract_text w page = Ok t) pages texts ->
  Forall blank texts ->
  fst (DriveService._extract_pdf_text w file_id st) = Ok [].
Proof.
  intros Hs Hd Hp Ht Hblank.
  destruct (download_delivered _ _ Hd) as (fh & Hrun & _ & Hread).
  unfold DriveService._extract_pdf_text.
  rewrite bind_run, (self_service_files_run _ _ Hs).
  unfold bind, provider_request, download, lift, ret.
  rewrite Hrun, Hread, Hp, (extract_pages_texts _ _ _ [] Ht).
  rewrite app_nil_l. unfold strip.
  now rewrite (blank_pages_text _ Hblank).
Qed.

Lemma blank_pdf_gives_empty_text_witness :
  fst (DriveService._extract_pdf_text extra_world "k1" (session_state extra_resource))
  = Ok [].
Proof.
  apply (blank_pdf_gives_empty_text extra_world (session_state extra_resource)
           extra_resource "k1" (text_bytes "%PDF-blank")
           ["  "; EmptyString; String (ascii_of_nat 10) EmptyString]
           [text_of_string "  "; []; newline]);
    try reflexivity; repeat constructor.
Defined.

(** X22. Whenever [GET /file/{file_id}] answers with a value, the value
    carries the identifier that was asked for and the name found in the
    metadata the provider returned for that identifier. *)
Theorem get_file_echoes_id_and_name
    (w : World) (st : State) (file_id : string) (fc : FileContent) :
  fst (get_file w file_id st) = Ok fc ->
  content_id fc = file_id /\
  exists api meta,
    service (drive_service (snd (get_file w file_id st))) = Some api /\
    files_get api file_id = Ok meta /\
    meta !! "name" = Some (content_name fc).
Proof.
  intros Hok.
  destruct (object_after_get_file w file_id st) as [Hobj _].
  rewrite Hobj. clear Hobj.
  unfold get_file, try_except in Hok.
  destruct (DriveService.get_file_content w file_id st) as [[fc'|e] s'] eqn:Hop;
    [|discriminate Hok].
  simpl in Hok. injection Hok as ->.
  unfold DriveService.get_file_content in Hop. rewrite bind_run in Hop.
  destruct (DriveService.ensure_authenticated w st) as [[[]|e] st1] eqn:Hens;
    [|discriminate Hop].
  unfold try_except in Hop.
  destruct (DriveService.get_file_content_try w file_id st1) as [[a|e] s2] eqn:Hbody.
  2:{ destruct (is_HttpError e); discriminate Hop. }
  injection Hop as -> ->.
  unfold DriveService.get_file_content_try in Hbody.
  rewrite bind_run in Hbody.
  destruct (service (drive_service st1)) as [api|] eqn:Hs.
  2:{ unfold self_service_files, bind, self_service in Hbody.
      rewrite Hs in Hbody. discriminate Hbody. }
  rewrite (self_service_files_run _ _ Hs) in Hbody.
  unfold provider_request, lift, getitem in Hbody.
  rewrite bind_run in Hbody. rewrite bind_run in Hbody.
  destruct (files_get api file_id) as [meta|e] eqn:Hg; [|discriminate Hbody].
  rewrite bind_run in Hbody.
  destruct (meta !! "name") as [name|] eqn:Hn; [|discriminate Hbody].
  rewrite bind_run in Hbody.
  destruct (meta !! "mimeType") as [mime_type|] eqn:Hm; [|discriminate Hbody].
  rewrite bind_run in Hbody.
  destruct (DriveService.extract_by_type w file_id mime_type
              (with_call st1 (GetRequest file_id))) as [[text|e] s3];
    [|discriminate Hbody].
  injection Hbody as <- _. simpl.
  split; [reflexivity|]. exists api, meta. now rewrite Hs.
Qed.

Lemma get_file_echoes_id_and_name_witness :
  content_id (mkFileContent "s1" "budget" (text_of_string "a,b;1,2")) = "s1" /\
  exists api meta,
    service (drive_service (snd (get_file extra_world "s1" fresh_state))) = Some api /\
    files_get api "s1" = Ok meta /\
    meta !! "name" = Some (content_name (mkFileContent "s1" "budget" (text_of_string "a,b;1,2"))).
Proof.
  apply (get_file_echoes_id_and_name extra_world fresh_state "s1"
           (mkFileContent "s1" "budget" (text_of_string "a,b;1,2"))).
  reflexivity.
Defined.
